(** * Mav Map: the token gate, the map surface and the search controller

    A shallow embedding of the three React components of the repository
    ([Index], [MapboxTokenInput], [MapContainer]) together with the part of
    their environment they talk to (the browser's key-value store, the toast
    notifications, the mapping engine and the geocoding endpoint).

    - JavaScript strings are sequences of UTF-16 code units ([list N]).
    - JavaScript numbers are IEEE 754 binary64 values: Rocq's primitive
      [float], whose operations are the ones JavaScript's [+ - * / <] denote.
    - React state is explicit. An event handler is a function on the
      application state; [setState] calls of a handler take effect when it
      returns, and no handler here reads state after setting it. The handler
      is followed by [render]: the component re-renders, and the effect of
      [MapContainer] runs its cleanup and its body again when one of its
      dependencies [mapboxToken, isSpinning, mapError] has changed.
    - The listeners of the mapping engine and the continuation of a request
      run outside React's handlers: they only queue state updates, and the
      component re-renders later. Several of them may run before that
      render; each finds the map reference and the closure of the last
      render, and of two updates of one state variable the later one stands.
      [Burst l] is such a run followed by the render; [Engine ev],
      [EngineCamera cam] and [SearchSettled o] are the runs of length one.
    - The mapping engine is a collaborator: a map instance records the
      options it was built with, the camera the engine reports, and the
      commands, controls and markers the application gave it. How the engine
      animates a command is left to it ([EngineCamera] is the engine moving
      the camera).
    - [handleSearch] is split at its [await]: the part that issues the
      request, and the part that runs when the request has settled. A body
      that parses is taken to be well formed: each candidate has its
      coordinate pair and its label.
    - [console.error] and the markup of the views are left out. *)

From Stdlib Require Import String Ascii Bool NArith ZArith Lia Floats List.
Import ListNotations.

(** ** JavaScript strings *)

Module JsString.

Definition t : Type := list N.

(** A source literal made of ASCII characters, as code units. *)
Definition lit (s : string) : t := map N_of_ascii (list_ascii_of_string s).

(** The quotation mark, U+0022. *)
Definition dquote : N := 34.

(** [a === b] *)
Fixpoint eqb (a b : t) : bool :=
  match a, b with
  | [], [] => true
  | x :: a', y :: b' => (x =? y)%N && eqb a' b'
  | _, _ => false
  end.

(** [!s] is [true] exactly for the empty string. *)
Definition isEmpty (s : t) : bool :=
  match s with
  | [] => true
  | _ :: _ => false
  end.

(** ECMAScript's WhiteSpace and LineTerminator code points, the ones
    [String.prototype.trim] strips. *)
Definition isWhiteSpace (c : N) : bool :=
  ((9 <=? c) && (c <=? 13)          (* TAB, LF, VT, FF, CR *)
   || (c =? 32)                     (* SPACE *)
   || (c =? 160)                    (* NO-BREAK SPACE *)
   || (c =? 5760)                   (* OGHAM SPACE MARK *)
   || (8192 <=? c) && (c <=? 8202)  (* EN QUAD .. HAIR SPACE *)
   || (c =? 8232) || (c =? 8233)    (* LINE / PARAGRAPH SEPARATOR *)
   || (c =? 8239)                   (* NARROW NO-BREAK SPACE *)
   || (c =? 8287)                   (* MEDIUM MATHEMATICAL SPACE *)
   || (c =? 12288)                  (* IDEOGRAPHIC SPACE *)
   || (c =? 65279))%N.              (* ZERO WIDTH NO-BREAK SPACE *)

Fixpoint trimStart (s : t) : t :=
  match s with
  | [] => []
  | c :: r => if isWhiteSpace c then trimStart r else s
  end.

Definition trimEnd (s : t) : t := rev (trimStart (rev s)).

Definition trim (s : t) : t := trimEnd (trimStart s).

(** [s.startsWith(p)] *)
Fixpoint startsWith (s p : t) {struct p} : bool :=
  match p, s with
  | [], _ => true
  | _ :: _, [] => false
  | a :: p', b :: s' => (a =? b)%N && startsWith s' p'
  end.

(** [s.includes(p)] *)
Fixpoint includes (s p : t) : bool :=
  startsWith s p ||
  match s with
  | [] => false
  | _ :: s' => includes s' p
  end.

End JsString.

Definition jsstring : Type := JsString.t.
Definition lit : string -> jsstring := JsString.lit.

(** ** The mapping engine, as far as the application drives it *)

Open Scope float_scope.

Record LngLat : Type := mkLngLat { lng : float; lat : float }.

Record Camera : Type := mkCamera {
  center : LngLat;
  zoom : float;
  pitch : float
}.

(** Camera transitions the application asks the engine for. *)
Inductive CameraCmd : Type :=
| EaseTo (c : LngLat) (duration : float) (easing : float -> float)
| FlyTo (c : LngLat) (z : float) (p : option float) (duration : float)
| ZoomIn
| ZoomOut.

Record Marker : Type := mkMarker {
  color : jsstring;
  lngLat : LngLat;
  popupHTML : jsstring
}.

Record Fog : Type := mkFog {
  fog_color : jsstring;
  high_color : jsstring;
  horizon_blend : float
}.

Record NavigationControl : Type := mkNav {
  visualizePitch : bool;
  position : jsstring
}.

(** One [mapboxgl.Map]: the options it was built with, the camera the engine
    currently reports ([getZoom], [getCenter]), and what the application has
    attached to it or asked of it (newest first). *)
Record MapInstance : Type := mkMap {
  accessToken : jsstring;
  style : jsstring;
  projection : jsstring;
  camera : Camera;
  controls : list NavigationControl;
  fog : option Fog;
  markers : list Marker;
  commands : list CameraCmd;
  removed : bool
}.

Definition set_camera (m : MapInstance) (cam : Camera) : MapInstance :=
  mkMap (accessToken m) (style m) (projection m) cam (controls m) (fog m)
        (markers m) (commands m) (removed m).

Definition issue (m : MapInstance) (cmd : CameraCmd) : MapInstance :=
  mkMap (accessToken m) (style m) (projection m) (camera m) (controls m)
        (fog m) (markers m) (cmd :: commands m) (removed m).

Definition addControl (m : MapInstance) (n : NavigationControl) : MapInstance :=
  mkMap (accessToken m) (style m) (projection m) (camera m) (n :: controls m)
        (fog m) (markers m) (commands m) (removed m).

Definition setFog (m : MapInstance) (f : Fog) : MapInstance :=
  mkMap (accessToken m) (style m) (projection m) (camera m) (controls m)
        (Some f) (markers m) (commands m) (removed m).

Definition addMarker (m : MapInstance) (k : Marker) : MapInstance :=
  mkMap (accessToken m) (style m) (projection m) (camera m) (controls m)
        (fog m) (k :: markers m) (commands m) (removed m).

Definition remove (m : MapInstance) : MapInstance :=
  mkMap (accessToken m) (style m) (projection m) (camera m) (controls m)
        (fog m) (markers m) (commands m) true.

Definition getZoom (m : MapInstance) : float := zoom (camera m).
Definition getCenter (m : MapInstance) : LngLat := center (camera m).

(** [new mapboxgl.Map({container, style, projection, zoom, center, pitch})] *)
Definition newMap (token : jsstring) : MapInstance :=
  mkMap token (lit "mapbox://styles/mapbox/dark-v11") (lit "globe")
        (mkCamera (mkLngLat 30 15) 1.5 45) [] None [] [] false.

(** ** The rotation tick *)

Definition secondsPerRevolution : float := 240.
Definition maxSpinZoom : float := 5.
Definition slowSpinZoom : float := 3.

(** What the effect's closure holds: the [isSpinning] of the render that ran
    the effect, and its own [userInteracting] variable. *)
Record Closure : Type := mkClosure {
  cl_isSpinning : bool;
  userInteracting : bool
}.

(** The distance of one pan, [distancePerSecond] at the [easeTo] call. *)
Definition distancePerSecond (z : float) : float :=
  let d := 360 / secondsPerRevolution in
  if slowSpinZoom <? z
  then d * ((maxSpinZoom - z) / (maxSpinZoom - slowSpinZoom))
  else d.

(** [spinGlobe], on the map [map.current] refers to. *)
Definition spinGlobe (cl : Closure) (cur : option MapInstance)
  : option MapInstance :=
  match cur with
  | None => None
  | Some m =>
      let z := getZoom m in
      if cl_isSpinning cl && negb (userInteracting cl) && (z <? maxSpinZoom)
      then
        let c := getCenter m in
        let c := mkLngLat (lng c - distancePerSecond z) (lat c) in
        Some (issue m (EaseTo c 1000 (fun n => n)))
      else Some m
  end.

(** ** The world outside React *)

Inductive ToastKind : Type := TSuccess | TError | TInfo.

Record Toast : Type := mkToast { kind : ToastKind; text : jsstring }.

(** Calls that create or destroy a map, newest first. *)
Inductive EngineCall : Type :=
| CreateMap (token : jsstring)
| RemoveMap.

Record Env : Type := mkEnv {
  localStorage : option jsstring;   (* the value under 'mavmap-mapbox-token' *)
  toasts : list Toast;              (* newest first *)
  engine : list EngineCall;         (* newest first *)
  requests : list jsstring;         (* URLs fetched, newest first *)
  pending : nat                     (* fetches not yet settled *)
}.

Definition toast (e : Env) (k : ToastKind) (msg : jsstring) : Env :=
  mkEnv (localStorage e) (mkToast k msg :: toasts e) (engine e) (requests e)
        (pending e).

Definition setItem (e : Env) (v : jsstring) : Env :=
  mkEnv (Some v) (toasts e) (engine e) (requests e) (pending e).

Definition call (e : Env) (c : EngineCall) : Env :=
  mkEnv (localStorage e) (toasts e) (c :: engine e) (requests e) (pending e).

Definition fetch (e : Env) (url : jsstring) : Env :=
  mkEnv (localStorage e) (toasts e) (engine e) (url :: requests e)
        (S (pending e)).

Definition settle (e : Env) : Env :=
  mkEnv (localStorage e) (toasts e) (engine e) (requests e) (pred (pending e)).

(** ** [encodeURIComponent] *)

Module URI.
Open Scope N_scope.

Definition isUnreserved (c : N) : bool :=
  (65 <=? c) && (c <=? 90) || (97 <=? c) && (c <=? 122)
  || (48 <=? c) && (c <=? 57)
  || existsb (N.eqb c) [45; 95; 46; 33; 126; 42; 39; 40; 41].

Definition hexDigit (n : N) : N := if n <? 10 then 48 + n else 55 + n.

Definition percent (b : N) : list N :=
  [37; hexDigit (b / 16); hexDigit (b mod 16)].

Definition utf8 (cp : N) : list N :=
  if cp <? 128 then [cp]
  else if cp <? 2048 then [192 + cp / 64; 128 + cp mod 64]
  else if cp <? 65536
       then [224 + cp / 4096; 128 + (cp / 64) mod 64; 128 + cp mod 64]
       else [240 + cp / 262144; 128 + (cp / 4096) mod 64;
             128 + (cp / 64) mod 64; 128 + cp mod 64].

Definition escape (cp : N) : list N := concat (map percent (utf8 cp)).

(** [None] is the [URIError] an unpaired surrogate raises. *)
Fixpoint encodeURIComponent (s : list N) : option (list N) :=
  match s with
  | [] => Some []
  | c :: r =>
      if isUnreserved c then option_map (cons c) (encodeURIComponent r)
      else if (c <? 55296) || (57343 <? c)
      then option_map (app (escape c)) (encodeURIComponent r)
      else if c <? 56320
      then match r with
           | d :: r' =>
               if (56320 <=? d) && (d <=? 57343)
               then option_map
                      (app (escape (65536 + (c - 55296) * 1024 + (d - 56320))))
                      (encodeURIComponent r')
               else None
           | [] => None
           end
      else None
  end.

End URI.

(** ** The geocoding endpoint *)

Record Feature : Type := mkFeature {
  f_center : LngLat;          (* [center], a [lng, lat] pair *)
  place_name : jsstring
}.

(** The parsed body; [features] is [None] when the body has no such field
    (an error body, for one). *)
Record GeoData : Type := mkGeoData { features : option (list Feature) }.

Inductive FetchOutcome : Type :=
| FetchRejected               (* [fetch] rejects: transport failure *)
| JsonRejected                (* [response.json()] rejects: not JSON *)
| Json (d : GeoData).

Definition geocodingUrl (q token : jsstring) : jsstring :=
  lit "https://api.mapbox.com/geocoding/v5/mapbox.places/" ++ q
  ++ lit ".json?access_token=" ++ token ++ lit "&limit=1".

(** ** [MapboxTokenInput] *)

Record TokenInput : Type := mkTokenInput {
  token : jsstring;
  showToken : bool
}.

(** ** [MapContainer] *)

Definition Deps : Type := (jsstring * bool * jsstring)%type.

Record MapContainer : Type := mkContainer {
  mapboxToken : jsstring;              (* the prop *)
  searchQuery : jsstring;
  isSpinning : bool;
  mapError : jsstring;
  isMapLoaded : bool;
  mapContainer : bool;                 (* [mapContainer.current] is a node *)
  map : option MapInstance;            (* [map.current] *)
  effectDeps : option Deps;            (* dependencies of the last effect run *)
  closure : option Closure             (* listeners and cleanup of that run,
                                          when it got as far as the map *)
}.

Definition setSearchQuery (c : MapContainer) (q : jsstring) : MapContainer :=
  mkContainer (mapboxToken c) q (isSpinning c) (mapError c) (isMapLoaded c)
              (mapContainer c) (map c) (effectDeps c) (closure c).

Definition setIsSpinning (c : MapContainer) (b : bool) : MapContainer :=
  mkContainer (mapboxToken c) (searchQuery c) b (mapError c) (isMapLoaded c)
              (mapContainer c) (map c) (effectDeps c) (closure c).

Definition setMapError (c : MapContainer) (msg : jsstring) : MapContainer :=
  mkContainer (mapboxToken c) (searchQuery c) (isSpinning c) msg
              (isMapLoaded c) (mapContainer c) (map c) (effectDeps c)
              (closure c).

Definition setIsMapLoaded (c : MapContainer) (b : bool) : MapContainer :=
  mkContainer (mapboxToken c) (searchQuery c) (isSpinning c) (mapError c) b
              (mapContainer c) (map c) (effectDeps c) (closure c).

Definition set_mapContainer (c : MapContainer) (b : bool) : MapContainer :=
  mkContainer (mapboxToken c) (searchQuery c) (isSpinning c) (mapError c)
              (isMapLoaded c) b (map c) (effectDeps c) (closure c).

Definition set_map (c : MapContainer) (m : option MapInstance) : MapContainer :=
  mkContainer (mapboxToken c) (searchQuery c) (isSpinning c) (mapError c)
              (isMapLoaded c) (mapContainer c) m (effectDeps c) (closure c).

Definition set_effectDeps (c : MapContainer) (d : option Deps) : MapContainer :=
  mkContainer (mapboxToken c) (searchQuery c) (isSpinning c) (mapError c)
              (isMapLoaded c) (mapContainer c) (map c) d (closure c).

Definition set_closure (c : MapContainer) (k : option Closure) : MapContainer :=
  mkContainer (mapboxToken c) (searchQuery c) (isSpinning c) (mapError c)
              (isMapLoaded c) (mapContainer c) (map c) (effectDeps c) k.

(** The state of a freshly mounted [MapContainer]. *)
Definition mount (tok : jsstring) : MapContainer :=
  mkContainer tok [] true [] false false None None None.

Definition msgInvalidFormat : jsstring :=
  lit "Invalid Mapbox token format. Token should start with "
  ++ [JsString.dquote] ++ lit "pk." ++ [JsString.dquote].

Definition msgUnauthorized : jsstring :=
  lit "Invalid Mapbox token. Please check your token and try again.".

Definition msgNetwork : jsstring :=
  lit "Failed to load map. Please check your internet connection.".

(** Which of the three returns of the component is on screen. *)
Inductive View : Type := TokenRequired | ErrorScreen | MainView.

Definition view (c : MapContainer) : View :=
  if JsString.isEmpty (mapboxToken c) then TokenRequired
  else if negb (JsString.isEmpty (mapError c)) then ErrorScreen
  else MainView.

Definition isMainView (v : View) : bool :=
  match v with MainView => true | _ => false end.

Definition isErrorScreen (v : View) : bool :=
  match v with ErrorScreen => true | _ => false end.

(** *** The effect *)

Definition deps (c : MapContainer) : Deps :=
  (mapboxToken c, isSpinning c, mapError c).

Definition deps_eqb (a b : Deps) : bool :=
  let '(t1, s1, e1) := a in
  let '(t2, s2, e2) := b in
  JsString.eqb t1 t2 && Bool.eqb s1 s2 && JsString.eqb e1 e2.

Definition sameDeps (last : option Deps) (now : Deps) : bool :=
  match last with
  | None => false
  | Some d => deps_eqb d now
  end.

(** The cleanup the effect returned, if it returned one:
    [map.current?.remove()]. *)
Definition cleanup (ec : Env * MapContainer) : Env * MapContainer :=
  let (e, c) := ec in
  match closure c with
  | None => ec
  | Some _ =>
      match map c with
      | None => (e, set_closure c None)
      | Some m =>
          (call e RemoveMap, set_closure (set_map c (Some (remove m))) None)
      end
  end.

(** The body of the effect. *)
Definition mapEffect (ec : Env * MapContainer) : Env * MapContainer :=
  let (e, c) := ec in
  if negb (mapContainer c) || JsString.isEmpty (mapboxToken c) then ec
  else if negb (JsString.startsWith (mapboxToken c) (lit "pk."))
  then (e, setMapError c msgInvalidFormat)
  else
    let m := newMap (mapboxToken c) in
    let m := addControl m (mkNav true (lit "top-right")) in
    let cl := mkClosure (isSpinning c) false in
    (call e (CreateMap (mapboxToken c)),
     set_closure (set_map c (spinGlobe cl (Some m))) (Some cl)).

(** One commit of React: the rendered view decides whether the map's node
    exists, and the effect runs again when a dependency has changed. *)
Definition commit (ec : Env * MapContainer) : Env * MapContainer :=
  let (e, c) := ec in
  let c := set_mapContainer c (isMainView (view c)) in
  if sameDeps (effectDeps c) (deps c) then (e, c)
  else mapEffect (cleanup (e, set_effectDeps c (Some (deps c)))).

(** Rendering until nothing changes. The effect sets state at most once (the
    invalid-format message), so two commits reach a state a third one leaves
    alone ([render_registered], [commit_stable] below). *)
Definition render (ec : Env * MapContainer) : Env * MapContainer :=
  commit (commit ec).

(** *** Signals of the mapping engine *)

Inductive MapEvent : Type :=
| mousedown
| dragstart
| mouseup
| touchend
| moveend
| load
| styleload
| error (message : option jsstring).   (* [e.error?.message] *)

Definition classifyError (message : option jsstring) : jsstring :=
  match message with
  | Some s =>
      if JsString.includes s (lit "Unauthorized")
         || JsString.includes s (lit "Invalid Token")
      then msgUnauthorized
      else msgNetwork
  | None => msgNetwork
  end.

Definition atmosphere : Fog :=
  mkFog (lit "rgb(15, 23, 42)") (lit "rgb(30, 41, 59)")
        0x1.999999999999ap-3.   (* the binary64 value of the literal 0.2 *)

Definition msgInitialized : jsstring :=
  lit "Mav Map initialized! " ++ [55356; 57101]%N.

Definition set_userInteracting (cl : Closure) (b : bool) : Closure :=
  mkClosure (cl_isSpinning cl) b.

(** The listeners the effect registered; a run that registered none, or whose
    map has been removed, hears nothing. *)
Definition onMapEvent (ev : MapEvent) (ec : Env * MapContainer)
  : Env * MapContainer :=
  let (e, c) := ec in
  match closure c with
  | None => ec
  | Some cl =>
      match ev with
      | mousedown | dragstart =>
          (e, set_closure c (Some (set_userInteracting cl true)))
      | mouseup | touchend =>
          let cl := set_userInteracting cl false in
          (e, set_map (set_closure c (Some cl)) (spinGlobe cl (map c)))
      | moveend => (e, set_map c (spinGlobe cl (map c)))
      | load =>
          (toast e TSuccess msgInitialized,
           setMapError (setIsMapLoaded c true) [])
      | styleload =>
          (e, set_map c (option_map (fun m => setFog m atmosphere) (map c)))
      | error message => (e, setMapError c (classifyError message))
      end
  end.

(** The engine moves the camera (an animation advances, the user drags). *)
Definition onCamera (cam : Camera) (c : MapContainer) : MapContainer :=
  match closure c with
  | None => c
  | Some _ => set_map c (option_map (fun m => set_camera m cam) (map c))
  end.

(** *** Search *)

Definition popupFor (label : jsstring) : jsstring :=
  lit "<div class=" ++ [JsString.dquote] ++ lit "p-2 text-sm font-medium"
  ++ [JsString.dquote] ++ lit ">" ++ label ++ lit "</div>".

(** [handleSearch] up to its first [await]. *)
Definition handleSearch (ec : Env * MapContainer) : Env * MapContainer :=
  let (e, c) := ec in
  if JsString.isEmpty (JsString.trim (searchQuery c))
     || JsString.isEmpty (mapboxToken c)
  then ec
  else
    match URI.encodeURIComponent (searchQuery c) with
    | None => (toast e TError (lit "Search failed"), c)
    | Some q => (fetch e (geocodingUrl q (mapboxToken c)), c)
    end.

(** What the success branch does to the map: [flyTo], then a marker with its
    popup, [const [lng, lat] = data.features[0].center] being the pair. *)
Definition markerFor (f : Feature) : Marker :=
  mkMarker (lit "#0ea5e9")
           (mkLngLat (lng (f_center f)) (lat (f_center f)))
           (popupFor (place_name f)).

Definition found (m : MapInstance) (f : Feature) : MapInstance :=
  let p := mkLngLat (lng (f_center f)) (lat (f_center f)) in
  let m := issue m (FlyTo p 12 None 2000) in
  addMarker m (markerFor f).

(** [handleSearch] from the point where the request has settled. *)
Definition handleSearch_settled (o : FetchOutcome) (ec : Env * MapContainer)
  : Env * MapContainer :=
  let (e, c) := ec in
  match o with
  | FetchRejected | JsonRejected => (toast e TError (lit "Search failed"), c)
  | Json data =>
      match features data with
      | Some (f :: _) =>
          match map c with
          | Some m =>
              (toast e TSuccess (lit "Found: " ++ place_name f),
               set_map c (Some (found m f)))
          | None =>
              (* [addTo(map.current!)] throws on [null]; caught *)
              (toast e TError (lit "Search failed"), c)
          end
      | _ => (toast e TError (lit "Location not found"), c)
      end
  end.

(** *** The buttons *)

Definition zoomIn (c : MapContainer) : MapContainer :=
  set_map c (option_map (fun m => issue m ZoomIn) (map c)).

Definition zoomOut (c : MapContainer) : MapContainer :=
  set_map c (option_map (fun m => issue m ZoomOut) (map c)).

Definition resetView (c : MapContainer) : MapContainer :=
  let c := setIsSpinning c true in
  set_map c (option_map
               (fun m => issue m (FlyTo (mkLngLat 30 15) 1.5 (Some 45) 2000))
               (map c)).

Definition toggleSpin (ec : Env * MapContainer) : Env * MapContainer :=
  let (e, c) := ec in
  (toast e TInfo (if isSpinning c then lit "Globe rotation paused"
                   else lit "Globe rotation resumed"),
   setIsSpinning c (negb (isSpinning c))).

(** ** [Index] and the whole application *)

Inductive Page : Type :=
| TokenForm (f : TokenInput)
| MapPage (c : MapContainer).

Record App : Type := mkApp {
  env : Env;
  index_mapboxToken : jsstring;    (* the state of [Index] *)
  page : Page                      (* the child it renders *)
}.

(** [Index] renders: the form while the token is empty, the map after. *)
Definition renderIndex (a : App) : App :=
  if JsString.isEmpty (index_mapboxToken a)
  then match page a with
       | TokenForm _ => a
       | MapPage _ =>
           mkApp (env a) (index_mapboxToken a) (TokenForm (mkTokenInput [] false))
       end
  else
    let c := match page a with
             | TokenForm _ => mount (index_mapboxToken a)
             | MapPage c =>
                 mkContainer (index_mapboxToken a) (searchQuery c)
                             (isSpinning c) (mapError c) (isMapLoaded c)
                             (mapContainer c) (map c) (effectDeps c) (closure c)
             end in
    let (e, c) := render (env a, c) in
    mkApp e (index_mapboxToken a) (MapPage c).

(** [handleTokenSubmit], the [onTokenSubmit] of the form. *)
Definition handleTokenSubmit (a : App) (tok : jsstring) : App :=
  mkApp (env a) tok (page a).

(** [handleSubmit] of the form, with the form's state [f]. *)
Definition handleSubmit (f : TokenInput) (a : App) : App :=
  if JsString.isEmpty (JsString.trim (token f))
  then mkApp (toast (env a) TError (lit "Please enter a valid Mapbox token"))
             (index_mapboxToken a) (page a)
  else
    let a := mkApp (setItem (env a) (token f)) (index_mapboxToken a) (page a) in
    let a := handleTokenSubmit a (token f) in
    mkApp (toast (env a) TSuccess
                 (lit "Mapbox token saved! Initializing Mav Map..."))
          (index_mapboxToken a) (page a).

(** Page load: the first render shows the form, then the effect of [Index]
    looks for a stored token. *)
Definition boot (stored : option jsstring) : App :=
  let a := mkApp (mkEnv stored [] [] [] 0) [] (TokenForm (mkTokenInput [] false)) in
  match stored with
  | Some tok =>
      if JsString.isEmpty tok then a else renderIndex (handleTokenSubmit a tok)
  | None => a
  end.

(** What reaches the page from outside React: a signal of the engine, the
    engine moving the camera, a request that has settled. *)
Inductive Async : Type :=
| Signal (ev : MapEvent)
| CameraMoved (cam : Camera)
| Settled (o : FetchOutcome).

(** The listener or continuation that runs for it. It queues state updates
    and touches the map and the environment; nothing re-renders yet. *)
Definition handleAsync (x : Async) (ec : Env * MapContainer)
  : Env * MapContainer :=
  let (e, c) := ec in
  match x with
  | Signal mev => onMapEvent mev ec
  | CameraMoved cam => (e, onCamera cam c)
  | Settled o =>
      match pending e with
      | O => ec
      | S _ => handleSearch_settled o (settle e, c)
      end
  end.

(** The listeners that call neither [setMapError] nor [setIsMapLoaded]. *)
Definition keepsError (x : Async) : bool :=
  match x with
  | Signal (error _) | Signal load => false
  | _ => true
  end.

(** What can happen to the running page. Each event ends with React
    rendering. A key or a click is rendered at once. What comes from outside
    React is rendered later: [Engine], [EngineCamera] and [SearchSettled]
    are the case where React renders before anything else arrives,
    [Burst l] the case where the listeners of [l] have all run by then. *)
Inductive Event : Type :=
| TypeToken (s : jsstring)
| ClickShowToken
| SubmitToken
| Engine (ev : MapEvent)
| EngineCamera (cam : Camera)
| TypeQuery (s : jsstring)
| SubmitSearch
| SearchSettled (o : FetchOutcome)
| ClickZoomIn
| ClickZoomOut
| ClickResetView
| ClickToggleSpin
| ClickEnterNewToken
| Burst (l : list Async).

(** The handler of an event on the map page, before React re-renders. The
    controls exist in the main view only, the recovery button on the error
    screen only. *)
Definition handleMapPage (ev : Event) (ec : Env * MapContainer)
  : Env * MapContainer :=
  let (e, c) := ec in
  let main := isMainView (view c) in
  match ev with
  | Engine mev => onMapEvent mev ec
  | EngineCamera cam => (e, onCamera cam c)
  | TypeQuery s => if main then (e, setSearchQuery c s) else ec
  | SubmitSearch => if main then handleSearch ec else ec
  | SearchSettled o =>
      match pending e with
      | O => ec
      | S _ => handleSearch_settled o (settle e, c)
      end
  | ClickZoomIn => if main then (e, zoomIn c) else ec
  | ClickZoomOut => if main then (e, zoomOut c) else ec
  | ClickResetView => if main then (e, resetView c) else ec
  | ClickToggleSpin => if main then toggleSpin ec else ec
  | Burst l => fold_left (fun ec x => handleAsync x ec) l ec
  | _ => ec
  end.

(** One event: its handler, or the listeners of its burst, and then the
    render. *)
Definition step (a : App) (ev : Event) : App :=
  match page a with
  | TokenForm f =>
      match ev with
      | TypeToken s =>
          mkApp (env a) (index_mapboxToken a)
                (TokenForm (mkTokenInput s (showToken f)))
      | ClickShowToken =>
          mkApp (env a) (index_mapboxToken a)
                (TokenForm (mkTokenInput (token f) (negb (showToken f))))
      | SubmitToken => renderIndex (handleSubmit f a)
      | _ => a
      end
  | MapPage c =>
      match ev with
      | ClickEnterNewToken =>
          (* [localStorage.removeItem]; [window.location.reload()] *)
          if isErrorScreen (view c) then boot None else a
      | _ =>
          let (e, c) := render (handleMapPage ev (env a, c)) in
          mkApp e (index_mapboxToken a) (MapPage c)
      end
  end.

Definition run (a : App) (evs : list Event) : App := fold_left step evs a.

(** ** Reachable states *)

(** The states the page can be in: a page load, then events. *)
Definition reachable (a : App) : Prop :=
  exists stored evs, a = run (boot stored) evs.

(** What a listener of the engine or the continuation of a request leaves
    as it found it: the token, the rotation flag, the effect's bookkeeping,
    the engine's log, the store and the requests; and whether there is a map,
    and what the map was built with. *)
Definition Framed (ec ec' : Env * MapContainer) : Prop :=
  mapboxToken (snd ec') = mapboxToken (snd ec) /\
  isSpinning (snd ec') = isSpinning (snd ec) /\
  effectDeps (snd ec') = effectDeps (snd ec) /\
  mapContainer (snd ec') = mapContainer (snd ec) /\
  engine (fst ec') = engine (fst ec) /\
  localStorage (fst ec') = localStorage (fst ec) /\
  requests (fst ec') = requests (fst ec) /\
  option_map cl_isSpinning (closure (snd ec'))
  = option_map cl_isSpinning (closure (snd ec)) /\
  (pending (fst ec') <= pending (fst ec))%nat /\
  match map (snd ec) with
  | Some m =>
      exists m', map (snd ec') = Some m' /\ removed m' = removed m /\
                 accessToken m' = accessToken m /\ style m' = style m /\
                 projection m' = projection m /\ controls m' = controls m
  | None => map (snd ec') = None
  end.

(** What the last run of the effect left behind: either it built a map, which
    is still there, with rotation as the closure captured it and no error; or
    it built none (it has not run yet, or an error was on screen). *)
Definition Registered (e : Env) (c : MapContainer) : Prop :=
  JsString.isEmpty (mapboxToken c) = false /\
  (map c = None -> pending e = 0%nat) /\
  match closure c with
  | Some cl =>
      exists m, map c = Some m /\ removed m = false /\
        JsString.startsWith (mapboxToken c) (lit "pk.") = true /\
        effectDeps c = Some (mapboxToken c, cl_isSpinning cl, [])
  | None =>
      effectDeps c = None \/
      exists s err, effectDeps c = Some (mapboxToken c, s, err) /\ err <> []
  end.

(** Nothing is left for React to do. *)
Definition Stable (e : Env) (c : MapContainer) : Prop :=
  Registered e c /\
  effectDeps c = Some (deps c) /\
  mapContainer c = isMainView (view c).

Definition Inv (a : App) : Prop :=
  match page a with
  | TokenForm _ => index_mapboxToken a = [] /\ pending (env a) = 0%nat
  | MapPage c => index_mapboxToken a = mapboxToken c /\ Stable (env a) c
  end.

(** A pan was added to the commands of [m]. *)
Definition panIssued (m : MapInstance) (r : option MapInstance) : Prop :=
  exists c d f, option_map commands r = Some (EaseTo c d f :: commands m).

(** What the pending cleanup does to the log and to [map.current]. *)
Definition cleanedEnv (e : Env) (c : MapContainer) : Env :=
  fst (cleanup (e, c)).

Definition cleanedMap (e : Env) (c : MapContainer) : option MapInstance :=
  map (snd (cleanup (e, c))).

(** The environment [handleSubmit] leaves when it accepts the token of the
    form [f]. *)
Definition saved (a : App) (f : TokenInput) : Env :=
  toast (setItem (env a) (token f)) TSuccess
        (lit "Mapbox token saved! Initializing Mav Map...").

(** The container on screen, if the map page is. *)
Definition containerOf (a : App) : MapContainer :=
  match page a with
  | MapPage c => c
  | TokenForm _ => mount []
  end.

Definition mapOf (a : App) : option MapInstance := map (containerOf a).

(** ** Sample runs *)

(** A page load with an empty store, the token typed into the form. *)
Definition typed (tok : jsstring) : App := step (boot None) (TypeToken tok).

(** A well-formed token is submitted and the map loads. *)
Definition loadedApp : App :=
  run (boot None) [TypeToken (lit "pk.abc"); SubmitToken; Engine load].

(** The pointer then goes down on the map and is not released on it. *)
Definition pressedApp : App :=
  run (boot None)
      [TypeToken (lit "pk.abc"); SubmitToken; Engine load; Engine mousedown].

(** Or a place is typed into the search box and sent: one request is in
    flight. *)
Definition waitingApp : App :=
  run (boot None)
      [TypeToken (lit "pk.abc"); SubmitToken; Engine load;
       TypeQuery (lit "Paris"); SubmitSearch].

Definition paris : Feature :=
  mkFeature (mkLngLat 2.25 48.75) (lit "Paris, France").

Definition lyon : Feature :=
  mkFeature (mkLngLat 4.75 45.75) (lit "Lyon, France").

(** ** Further notions for the properties below *)

(** A string made of white space only (the empty string is one). *)
Definition isBlank (s : jsstring) : bool := forallb JsString.isWhiteSpace s.

(** The map as the effect leaves it: built for [tok], with the navigation
    control, after the first tick of a closure that captured [spinning]. *)
Definition freshMap (tok : jsstring) (spinning : bool) : option MapInstance :=
  spinGlobe (mkClosure spinning false)
            (Some (addControl (newMap tok) (mkNav true (lit "top-right")))).

(** Signals of the engine that are neither a release of the pointer nor an
    error, and camera movements. *)
Definition heldEvent (ev : Event) : bool :=
  match ev with
  | Engine mousedown | Engine dragstart | Engine moveend
  | Engine load | Engine styleload | EngineCamera _ => true
  | _ => false
  end.

(** A malformed token was submitted: the error screen is up. *)
Definition erroredApp : App :=
  run (boot None) [TypeToken (lit "abc123"); SubmitToken].

(** A JavaScript string holds 16-bit code units. *)
Definition wellFormed (s : jsstring) : bool :=
  forallb (fun c => (c <? 65536)%N) s.

(** What may stand in a URL component unescaped, and the percent sign of an
    escape. *)
Definition isUrlSafe (c : N) : bool := URI.isUnreserved c || (c =? 37)%N.

(** The map is loaded and a place is typed into the search box. *)
Definition queryApp : App :=
  run (boot None)
      [TypeToken (lit "pk.abc"); SubmitToken; Engine load;
       TypeQuery (lit "Paris, France")].

(** A map built by the effect for the token [tok]. *)
Definition builtFor (tok : jsstring) (m : MapInstance) : Prop :=
  accessToken m = tok /\
  style m = lit "mapbox://styles/mapbox/dark-v11" /\
  projection m = lit "globe" /\
  controls m = [mkNav true (lit "top-right")].

(** On the map page the store holds the token in use, and [map.current], if
    it refers to a map, refers to one built for that token, which starts
    with "pk.". *)
Definition Built (a : App) : Prop :=
  match page a with
  | TokenForm _ => True
  | MapPage c =>
      localStorage (env a) = Some (mapboxToken c) /\
      forall m, map c = Some m ->
                builtFor (mapboxToken c) m /\
                JsString.startsWith (mapboxToken c) (lit "pk.") = true
  end.


(** * Properties *)

(** ** Strings *)

Section StringFacts.

Lemma eqb_refl (s : jsstring) : JsString.eqb s s = true.
Proof.
  induction s as [|c s IH]; simpl; [reflexivity|].
  now rewrite N.eqb_refl, IH.
Qed.

Lemma eqb_eq (a b : jsstring) : JsString.eqb a b = true <-> a = b.
Proof.
  split; [|intros ->; apply eqb_refl].
  revert b; induction a as [|x a IH]; intros [|y b]; simpl; try discriminate.
  - reflexivity.
  - intros H. apply andb_true_iff in H as [Hx Hr].
    apply N.eqb_eq in Hx. subst y. f_equal. now apply IH.
Qed.

(** A string with something left after trimming is not empty. *)
Lemma trim_nonempty (s : jsstring) :
  JsString.isEmpty (JsString.trim s) = false -> JsString.isEmpty s = false.
Proof. destruct s; simpl; [discriminate|reflexivity]. Qed.

Lemma startsWith_app (p s : jsstring) : JsString.startsWith (p ++ s) p = true.
Proof.
  induction p as [|c p IH]; simpl; [reflexivity|].
  now rewrite N.eqb_refl, IH.
Qed.

Lemma includes_prefix (s p : jsstring) :
  JsString.startsWith s p = true -> JsString.includes s p = true.
Proof. intros H. destruct s; simpl; rewrite H; reflexivity. Qed.

Lemma includes_app (a p s : jsstring) :
  JsString.includes (a ++ p ++ s) p = true.
Proof.
  induction a as [|c a IH]; simpl.
  - apply includes_prefix, startsWith_app.
  - rewrite IH. apply orb_true_r.
Qed.

End StringFacts.

(** ** Comparisons of binary64 numbers *)

Section FloatFacts.

Lemma SFcompare_antisym (x y : spec_float) (c : comparison) :
  SFcompare x y = Some c -> SFcompare y x = Some (CompOpp c).
Proof.
  destruct x as [sx|sx| |sx mx ex], y as [sy|sy| |sy my ey]; simpl;
    try discriminate;
    try (intros H; injection H as <-;
         repeat match goal with b : bool |- _ => destruct b end;
         reflexivity).
  intros H; injection H as <-. f_equal.
  destruct sx, sy; simpl; try reflexivity;
    rewrite (Z.compare_antisym ex ey);
    destruct (ex ?= ey)%Z; simpl; try reflexivity;
    rewrite (Pos.compare_cont_antisym mx my Eq); simpl;
    destruct (Pos.compare_cont Eq mx my); reflexivity.
Qed.

(** [x <= y] excludes [y < x]. *)
Lemma leb_not_gtb (x y : float) : (x <=? y) = true -> (y <? x) = false.
Proof.
  rewrite leb_spec, ltb_spec. unfold SFleb, SFltb.
  destruct (SFcompare (Prim2SF x) (Prim2SF y)) as [c|] eqn:E;
    [|discriminate].
  rewrite (SFcompare_antisym _ _ _ E).
  destruct c; simpl; congruence.
Qed.

End FloatFacts.

(** ** Sanity checks of the embedding *)

Example encode_plain :
  URI.encodeURIComponent (lit "Paris, France") = Some (lit "Paris%2C%20France").
Proof. reflexivity. Qed.

Example encode_utf8 :
  URI.encodeURIComponent [233; 8364; 55357; 56832]%N
  = Some (lit "%C3%A9%E2%82%AC%F0%9F%98%80").
Proof. reflexivity. Qed.

Example encode_lone_surrogate : URI.encodeURIComponent [55357]%N = None.
Proof. reflexivity. Qed.

Example trim_both_sides : JsString.trim (lit "  pk.a b ") = lit "pk.a b".
Proof. reflexivity. Qed.

Example distance_at_2 : distancePerSecond 2 = 1.5.
Proof. reflexivity. Qed.

Example distance_at_4 : distancePerSecond 4 = 0.75.
Proof. reflexivity. Qed.

Example first_pan :
  option_map commands (mapOf loadedApp)
  = Some [EaseTo (mkLngLat 28.5 15) 1000 (fun n => n)].
Proof. reflexivity. Qed.

(** ** React: rendering reaches a stable state *)

Section Rendering.

Lemma deps_eqb_eq (a b : Deps) : deps_eqb a b = true <-> a = b.
Proof.
  destruct a as [[t1 s1] e1], b as [[t2 s2] e2]. unfold deps_eqb.
  rewrite !andb_true_iff, !eqb_eq, Bool.eqb_true_iff.
  split; [intros [[-> ->] ->]; reflexivity|intros H; injection H; auto].
Qed.

Lemma sameDeps_eq (last : option Deps) (now : Deps) :
  sameDeps last now = true <-> last = Some now.
Proof.
  destruct last as [d|]; simpl; [|split; discriminate].
  rewrite deps_eqb_eq. split; congruence.
Qed.

Lemma sameDeps_neq (last : option Deps) (now : Deps) :
  last <> Some now -> sameDeps last now = false.
Proof.
  intros H. destruct (sameDeps last now) eqn:E; [|reflexivity].
  apply sameDeps_eq in E. contradiction.
Qed.

(** The tick keeps the map there and not removed. *)
Lemma spinGlobe_some (cl : Closure) (m : MapInstance) :
  exists m', spinGlobe cl (Some m) = Some m' /\ removed m' = removed m
             /\ markers m' = markers m /\ accessToken m' = accessToken m.
Proof.
  unfold spinGlobe.
  destruct (cl_isSpinning cl && negb (userInteracting cl)
            && (getZoom m <? maxSpinZoom));
    eexists; repeat split; reflexivity.
Qed.

Lemma commit_stable (e : Env) (c : MapContainer) :
  Stable e c -> commit (e, c) = (e, c).
Proof.
  intros (_ & Hd & Hn). unfold commit.
  replace (set_mapContainer c (isMainView (view c))) with c
    by (destruct c; unfold set_mapContainer; cbn in *; now rewrite <- Hn).
  rewrite (proj2 (sameDeps_eq _ _) Hd). reflexivity.
Qed.

Lemma render_stable (e : Env) (c : MapContainer) :
  Stable e c -> render (e, c) = (e, c).
Proof. intros H. unfold render. now rewrite !commit_stable. Qed.

End Rendering.

(** Unfolding the record plumbing of [MapContainer]. *)
Ltac plumb :=
  cbv beta iota zeta delta
    [render commit mapEffect cleanup view deps fst snd
     set_mapContainer set_effectDeps set_closure set_map setMapError
     setIsSpinning setIsMapLoaded setSearchQuery
     mapboxToken searchQuery isSpinning mapError isMapLoaded mapContainer
     map effectDeps closure isMainView JsString.isEmpty negb orb andb] in *.

Section RenderCases.

Lemma render_noop (e : Env) (c : MapContainer) :
  effectDeps c = Some (deps c) ->
  render (e, c) = (e, set_mapContainer c (isMainView (view c))).
Proof.
  destruct c as [tok q sp err loaded node m ed cl]. plumb.
  intros H. rewrite !(proj2 (sameDeps_eq _ _) H). reflexivity.
Qed.

Lemma render_error (e : Env) (c : MapContainer) :
  effectDeps c <> Some (deps c) ->
  JsString.isEmpty (mapboxToken c) = false ->
  mapError c <> [] ->
  render (e, c) =
  (cleanedEnv e c,
   mkContainer (mapboxToken c) (searchQuery c) (isSpinning c) (mapError c)
               (isMapLoaded c) false (cleanedMap e c) (Some (deps c)) None).
Proof.
  unfold cleanedEnv, cleanedMap.
  destruct c as [tok q sp err loaded node m ed cl]. plumb.
  intros Hrerun Htok Herr.
  rewrite (sameDeps_neq _ _ Hrerun).
  destruct tok as [|t0 tok]; [discriminate|].
  destruct err as [|e0 err]; [contradiction|].
  destruct cl as [cl|], m as [m|]; plumb;
    rewrite (proj2 (sameDeps_eq _ _) eq_refl); reflexivity.
Qed.

Lemma render_badToken (e : Env) (c : MapContainer) :
  effectDeps c <> Some (deps c) ->
  JsString.isEmpty (mapboxToken c) = false ->
  mapError c = [] ->
  JsString.startsWith (mapboxToken c) (lit "pk.") = false ->
  render (e, c) =
  (cleanedEnv e c,
   mkContainer (mapboxToken c) (searchQuery c) (isSpinning c)
               msgInvalidFormat (isMapLoaded c) false (cleanedMap e c)
               (Some (mapboxToken c, isSpinning c, msgInvalidFormat)) None).
Proof.
  unfold cleanedEnv, cleanedMap.
  destruct c as [tok q sp err loaded node m ed cl]. plumb.
  intros Hrerun Htok -> Hpk.
  rewrite (sameDeps_neq _ _ Hrerun).
  destruct tok as [|t0 tok]; [discriminate|].
  assert (Hne : forall s, sameDeps (Some (t0 :: tok, s, [])) (t0 :: tok, s, msgInvalidFormat) = false)
    by (intros s; apply sameDeps_neq; discriminate).
  destruct cl as [cl|], m as [m|]; plumb; rewrite Hpk; plumb;
    rewrite Hne; reflexivity.
Qed.

Lemma render_create (e : Env) (c : MapContainer) :
  effectDeps c <> Some (deps c) ->
  JsString.isEmpty (mapboxToken c) = false ->
  mapError c = [] ->
  JsString.startsWith (mapboxToken c) (lit "pk.") = true ->
  let cl := mkClosure (isSpinning c) false in
  render (e, c) =
  (call (cleanedEnv e c) (CreateMap (mapboxToken c)),
   mkContainer (mapboxToken c) (searchQuery c) (isSpinning c) []
               (isMapLoaded c) true
               (spinGlobe cl (Some (addControl (newMap (mapboxToken c))
                                               (mkNav true (lit "top-right")))))
               (Some (deps c)) (Some cl)).
Proof.
  unfold cleanedEnv, cleanedMap.
  destruct c as [tok q sp err loaded node m ed cl]. plumb.
  intros Hrerun Htok -> Hpk.
  rewrite (sameDeps_neq _ _ Hrerun).
  destruct tok as [|t0 tok]; [discriminate|].
  destruct cl as [cl|], m as [m|]; plumb; rewrite Hpk; plumb;
    rewrite (proj2 (sameDeps_eq _ _) eq_refl); reflexivity.
Qed.

End RenderCases.

Section Invariant.

Lemma cleanup_pending (e : Env) (c : MapContainer) :
  pending (cleanedEnv e c) = pending e.
Proof.
  unfold cleanedEnv, cleanup. destruct (closure c), (map c); reflexivity.
Qed.

Lemma cleanup_map_none (e : Env) (c : MapContainer) :
  cleanedMap e c = None -> map c = None.
Proof.
  unfold cleanedMap, cleanup.
  destruct c as [tok q sp err loaded node m ed cl].
  destruct cl, m; plumb; congruence.
Qed.

Lemma render_registered (e : Env) (c : MapContainer) :
  Registered e c -> Stable (fst (render (e, c))) (snd (render (e, c))).
Proof.
  intros (Htok & Hpend & Hcl).
  destruct (sameDeps (effectDeps c) (deps c)) eqn:Hs.
  - apply sameDeps_eq in Hs. rewrite (render_noop _ _ Hs).
    destruct c as [tok q sp err loaded node m ed cl].
    unfold Stable, Registered. plumb. repeat split; auto.
  - assert (Hre : effectDeps c <> Some (deps c)).
    { intros H. apply sameDeps_eq in H. congruence. }
    assert (Hp : cleanedMap e c = None -> pending (cleanedEnv e c) = 0%nat).
    { intros H. rewrite cleanup_pending. eauto using cleanup_map_none. }
    destruct (mapError c) as [|e0 err] eqn:Herr.
    + destruct (JsString.startsWith (mapboxToken c) (lit "pk.")) eqn:Hpk.
      * rewrite (render_create _ _ Hre Htok Herr Hpk).
        destruct (spinGlobe_some (mkClosure (isSpinning c) false)
                    (addControl (newMap (mapboxToken c))
                                (mkNav true (lit "top-right"))))
          as (m' & -> & Hrm & _).
        unfold Stable, Registered, view, deps. cbn.
        rewrite Htok, Herr. repeat split; try discriminate.
        exists m'. repeat split; auto.
      * rewrite (render_badToken _ _ Hre Htok Herr Hpk).
        unfold Stable, Registered, view, deps. cbn. rewrite Htok.
        repeat split; auto.
        right. exists (isSpinning c), msgInvalidFormat.
        split; [reflexivity|discriminate].
    + rewrite (render_error e c Hre Htok) by (rewrite Herr; discriminate).
      unfold Stable, Registered, view, deps. cbn. rewrite Htok, Herr.
      repeat split; auto.
      right. exists (isSpinning c), (e0 :: err).
      split; [reflexivity|discriminate].
Qed.

(** A stable container with listeners has a live map, built for the
    current rotation mode, and shows no error. *)
Lemma stable_closure (e : Env) (c : MapContainer) (cl : Closure) :
  Stable e c -> closure c = Some cl ->
  exists m, map c = Some m /\ removed m = false /\
            cl_isSpinning cl = isSpinning c /\ mapError c = [] /\
            JsString.startsWith (mapboxToken c) (lit "pk.") = true.
Proof.
  intros ((_ & _ & Hcl) & Hd & _) E. rewrite E in Hcl.
  destruct Hcl as (m & Hm & Hr & Hpk & Hed).
  rewrite Hd in Hed. unfold deps in Hed. injection Hed as Hs He.
  exists m. auto.
Qed.

(** The main view is on screen exactly when the effect's map is live. *)
Lemma stable_main (e : Env) (c : MapContainer) :
  Stable e c -> isMainView (view c) = true ->
  exists cl, closure c = Some cl.
Proof.
  intros ((Htok & _ & Hcl) & Hd & _) Hv.
  destruct (closure c) as [cl|]; [eauto|exfalso].
  unfold view in Hv. rewrite Htok in Hv.
  destruct (mapError c) eqn:Herr; [|discriminate].
  rewrite Hd in Hcl. destruct Hcl as [H|(s & err & H & Hne)];
    [discriminate|].
  unfold deps in H. rewrite Herr in H. injection H as _ <-. congruence.
Qed.

Lemma stable_error (e : Env) (c : MapContainer) :
  Stable e c -> isMainView (view c) = false -> closure c = None.
Proof.
  intros H Hv. destruct (closure c) as [cl|] eqn:E; [|reflexivity].
  destruct (stable_closure _ _ _ H E) as (m & _ & _ & _ & Herr & _).
  destruct H as ((Htok & _) & _).
  unfold view in Hv. rewrite Htok, Herr in Hv. discriminate.
Qed.

End Invariant.

Section Handlers.

Local Arguments spinGlobe : simpl never.
Local Arguments JsString.trim : simpl never.
Local Arguments JsString.isEmpty : simpl never.
Local Arguments lit : simpl never.
Local Arguments geocodingUrl : simpl never.
Local Arguments URI.encodeURIComponent : simpl never.
Local Arguments popupFor : simpl never.
Local Arguments classifyError : simpl never.
Local Arguments msgInitialized : simpl never.

(** A handler that keeps the token, the effect's bookkeeping and the map's
    presence keeps [Registered]. *)
Lemma registered_frame (e e' : Env) (c c' : MapContainer) :
  Registered e c ->
  mapboxToken c' = mapboxToken c ->
  effectDeps c' = effectDeps c ->
  option_map cl_isSpinning (closure c') = option_map cl_isSpinning (closure c) ->
  (forall m, map c = Some m ->
             exists m', map c' = Some m' /\ removed m' = removed m) ->
  (map c = None -> pending e' = 0%nat) ->
  Registered e' c'.
Proof.
  intros (Htok & Hpend & Hcl) Ht Hd Hk Hm Hp.
  unfold Registered. rewrite Ht, Hd. split; [assumption|]. split.
  - intros Hn. apply Hp. destruct (map c) as [m|]; [|reflexivity].
    destruct (Hm m eq_refl) as (m' & E & _). congruence.
  - destruct (closure c') as [cl'|], (closure c) as [cl|];
      try discriminate; [|assumption].
    injection Hk as ->.
    destruct Hcl as (m & E & Hr & Hpk & Hed).
    destruct (Hm m E) as (m' & E' & Hr').
    exists m'. rewrite Hr'. auto.
Qed.

Lemma spinGlobe_frame (cl : Closure) (cur : option MapInstance) (m : MapInstance) :
  cur = Some m ->
  exists m', spinGlobe cl cur = Some m' /\ removed m' = removed m.
Proof.
  intros ->. destruct (spinGlobe_some cl m) as (m' & E & Hr & _). eauto.
Qed.

Ltac frame_goals :=
  repeat match goal with
    | |- _ /\ _ => split
    | |- forall _, _ => intro
    | H : Some _ = Some _ |- _ => injection H as <-
    | H : None = Some _ |- _ => discriminate H
    | H : Some _ = None |- _ => discriminate H
    | |- ex _ =>
        first [ apply spinGlobe_frame; reflexivity
              | eexists; split; [reflexivity|] ]
    end; cbn; try reflexivity; try assumption.

(** *** Listeners that run before React renders *)

Lemma framed_refl (ec : Env * MapContainer) : Framed ec ec.
Proof.
  unfold Framed. do 9 (split; [first [reflexivity | lia]|]).
  destruct (map (snd ec)) as [m|]; [|reflexivity].
  exists m. repeat split.
Qed.

Lemma framed_trans (x y z : Env * MapContainer) :
  Framed x y -> Framed y z -> Framed x z.
Proof.
  unfold Framed.
  intros (A1 & A2 & A3 & A4 & A5 & A6 & A7 & A8 & A9 & A10)
         (B1 & B2 & B3 & B4 & B5 & B6 & B7 & B8 & B9 & B10).
  do 9 (split; [first [congruence | lia]|]).
  destruct (map (snd x)) as [m|].
  - destruct A10 as (m1 & E1 & R1 & T1 & S1 & P1 & C1).
    rewrite E1 in B10. destruct B10 as (m2 & E2 & R2 & T2 & S2 & P2 & C2).
    exists m2. repeat split; congruence.
  - rewrite A10 in B10. exact B10.
Qed.

Lemma spinGlobe_built (cl : Closure) (m : MapInstance) :
  exists m', spinGlobe cl (Some m) = Some m' /\ removed m' = removed m /\
             accessToken m' = accessToken m /\ style m' = style m /\
             projection m' = projection m /\ controls m' = controls m.
Proof.
  unfold spinGlobe.
  destruct (cl_isSpinning cl && negb (userInteracting cl)
            && (getZoom m <? maxSpinZoom));
    eexists; repeat split; reflexivity.
Qed.

Lemma async_framed (x : Async) (ec : Env * MapContainer) :
  Framed ec (handleAsync x ec).
Proof.
  destruct ec as [e c]. destruct c as [tok q sp err loaded node m ed cl].
  unfold Framed, handleAsync, onMapEvent, onCamera, handleSearch_settled.
  destruct x as [mev|cam|o]; cbn;
    try destruct mev; try destruct (pending e) eqn:Ep;
    try destruct o as [| |[[[|f fs]|]]];
    destruct cl as [cl|], m as [m|]; cbn;
    do 9 (split; [first [reflexivity | lia]|]);
    try reflexivity;
    try (apply spinGlobe_built);
    try (eexists; repeat split; reflexivity).
Qed.

Lemma burst_framed (l : list Async) (ec : Env * MapContainer) :
  Framed ec (fold_left (fun ec x => handleAsync x ec) l ec).
Proof.
  revert ec. induction l as [|x l IH]; intros ec; cbn [fold_left].
  - apply framed_refl.
  - eapply framed_trans; [apply async_framed|apply IH].
Qed.

(** While the effect has no listeners registered, nothing from outside
    changes a dependency of the effect. *)
Lemma async_quiet (x : Async) (e : Env) (c : MapContainer) :
  closure c = None -> deps (snd (handleAsync x (e, c))) = deps c.
Proof.
  destruct c as [tok q sp err loaded node m ed cl]. cbn. intros ->.
  unfold handleAsync, onMapEvent, onCamera, handleSearch_settled.
  destruct x as [mev|cam|o]; cbn; try reflexivity.
  destruct (pending e); [reflexivity|].
  destruct o as [| |[[[|f fs]|]]]; try reflexivity.
  cbn. destruct m; reflexivity.
Qed.

Lemma burst_quiet (l : list Async) (e : Env) (c : MapContainer) :
  closure c = None ->
  deps (snd (fold_left (fun ec x => handleAsync x ec) l (e, c))) = deps c.
Proof.
  revert e c. induction l as [|x l IH]; intros e c Hc; cbn [fold_left].
  - reflexivity.
  - pose proof (async_quiet x e c Hc) as Hd.
    pose proof (async_framed x (e, c)) as (_ & _ & _ & _ & _ & _ & _ & Hk & _).
    destruct (handleAsync x (e, c)) as [e1 c1]. cbn [fst snd] in *.
    rewrite Hc in Hk. cbn in Hk.
    rewrite IH; [exact Hd|].
    destruct (closure c1); [discriminate|reflexivity].
Qed.

(** The listeners other than [error] and [load] leave the message alone. *)
Lemma async_keepsError (x : Async) (ec : Env * MapContainer) :
  keepsError x = true ->
  mapError (snd (handleAsync x ec)) = mapError (snd ec).
Proof.
  destruct ec as [e c]. destruct c as [tok q sp err loaded node m ed cl].
  unfold handleAsync, onMapEvent, onCamera, handleSearch_settled.
  destruct x as [mev|cam|o]; cbn;
    try destruct mev; try discriminate; try destruct (pending e);
    try destruct o as [| |[[[|f fs]|]]];
    destruct cl as [cl|], m as [m|]; reflexivity.
Qed.

Lemma burst_keepsError (l : list Async) (ec : Env * MapContainer) :
  forallb keepsError l = true ->
  mapError (snd (fold_left (fun ec x => handleAsync x ec) l ec))
  = mapError (snd ec).
Proof.
  revert ec. induction l as [|x l IH]; intros ec H; cbn [fold_left].
  - reflexivity.
  - cbn in H. apply andb_prop in H as [Hx Hl].
    rewrite (IH _ Hl). now apply async_keepsError.
Qed.

Lemma handle_registered (ev : Event) (e : Env) (c : MapContainer) :
  Stable e c ->
  Registered (fst (handleMapPage ev (e, c))) (snd (handleMapPage ev (e, c)))
  /\ mapboxToken (snd (handleMapPage ev (e, c))) = mapboxToken c.
Proof.
  intros HS.
  assert (Hmain : isMainView (view c) = true -> exists cl m,
              closure c = Some cl /\ map c = Some m).
  { intros Hv. destruct (stable_main _ _ HS Hv) as (cl & E).
    destruct (stable_closure _ _ _ HS E) as (m & Em & _). eauto. }
  destruct HS as (HR & _).
  assert (Hpend : map c = None -> pending e = 0%nat) by apply HR.
  cut (let r := handleMapPage ev (e, c) in
       mapboxToken (snd r) = mapboxToken c /\
       effectDeps (snd r) = effectDeps c /\
       option_map cl_isSpinning (closure (snd r))
       = option_map cl_isSpinning (closure c) /\
       (forall m, map c = Some m ->
                  exists m', map (snd r) = Some m' /\ removed m' = removed m) /\
       (map c = None -> pending (fst r) = 0%nat)).
  { cbv zeta. intros (Ht & Hd & Hk & Hm & Hp).
    split; [|assumption]. eapply registered_frame; eauto. }
  clear HR.
  assert (HB : forall l,
             let r := fold_left (fun ec x => handleAsync x ec) l (e, c) in
             mapboxToken (snd r) = mapboxToken c /\
             effectDeps (snd r) = effectDeps c /\
             option_map cl_isSpinning (closure (snd r))
             = option_map cl_isSpinning (closure c) /\
             (forall m, map c = Some m ->
                        exists m', map (snd r) = Some m'
                                   /\ removed m' = removed m) /\
             (map c = None -> pending (fst r) = 0%nat)).
  { intros l. cbv zeta.
    destruct (burst_framed l (e, c))
      as (F1 & _ & F3 & _ & _ & _ & _ & F8 & F9 & F10).
    cbn [fst snd] in *. repeat (split; [assumption|]). split.
    - intros m Em. rewrite Em in F10.
      destruct F10 as (m' & E' & R' & _). eauto.
    - intros En. specialize (Hpend En). lia. }
  destruct ev as [| | |mev| | | |o| | | | | |l];
    [ > clear HB; unfold handleMapPage;
        (destruct (isMainView (view c)) eqn:Hv;
           [destruct (Hmain eq_refl) as (cl0 & m0 & Ecl & Em)|clear Hmain]);
        destruct c as [tok q sp err loaded node m ed cl]; cbn in *; subst;
        [ cbn; try destruct mev; try destruct (pending e) eqn:Ep;
          try destruct o as [| |[[[|f fs]|]]]; cbn;
          unfold handleSearch; cbn;
          try destruct (JsString.isEmpty (JsString.trim q)
                        || JsString.isEmpty tok);
          try destruct (URI.encodeURIComponent q);
          frame_goals
        | cbn; try destruct mev; try destruct (pending e) eqn:Ep;
          try destruct o as [| |[[[|f fs]|]]]; cbn;
          destruct cl as [cl|], m as [m|]; cbn;
          frame_goals; auto;
          specialize (Hpend eq_refl); lia ] ..
    | exact (HB l) ].
Qed.

End Handlers.

(** ** The invariant of the running page *)

Section Reachability.

Lemma commit_token (e : Env) (c : MapContainer) :
  mapboxToken (snd (commit (e, c))) = mapboxToken c.
Proof.
  destruct c as [tok q sp err loaded node m ed cl]. plumb.
  destruct (sameDeps ed (tok, sp, err)); [reflexivity|].
  destruct cl, m, tok, err; plumb; try reflexivity;
    match goal with
    | |- context [JsString.startsWith ?s ?p] =>
        destruct (JsString.startsWith s p); reflexivity
    end.
Qed.

Lemma render_token (e : Env) (c : MapContainer) :
  mapboxToken (snd (render (e, c))) = mapboxToken c.
Proof.
  unfold render. destruct (commit (e, c)) as [e1 c1] eqn:E.
  rewrite commit_token. change c1 with (snd (e1, c1)). rewrite <- E.
  apply commit_token.
Qed.

Lemma mount_registered (e : Env) (tok : jsstring) :
  JsString.isEmpty tok = false -> pending e = 0%nat ->
  Registered e (mount tok).
Proof. intros Ht Hp. repeat split; auto. left. reflexivity. Qed.

Lemma renderIndex_mount (e : Env) (tok : jsstring) (f : TokenInput) :
  JsString.isEmpty tok = false -> pending e = 0%nat ->
  Inv (renderIndex (mkApp e tok (TokenForm f))).
Proof.
  intros Ht Hp. unfold renderIndex. cbn [index_mapboxToken page env].
  rewrite Ht.
  pose proof (render_registered _ _ (mount_registered e tok Ht Hp)) as HS.
  pose proof (render_token e (mount tok)) as HT.
  destruct (render (e, mount tok)) as [e' c']. cbn in *.
  split; [now rewrite HT|assumption].
Qed.

Lemma boot_inv (stored : option jsstring) : Inv (boot stored).
Proof.
  unfold boot. destruct stored as [tok|]; [|split; reflexivity].
  destruct (JsString.isEmpty tok) eqn:Ht; [split; reflexivity|].
  apply renderIndex_mount; [assumption|reflexivity].
Qed.

Lemma step_inv (a : App) (ev : Event) : Inv a -> Inv (step a ev).
Proof.
  destruct a as [e tok [f|c]]; unfold Inv, step; cbn [page env index_mapboxToken].
  - intros [-> Hp].
    destruct ev; try (split; [reflexivity|assumption]).
    unfold handleSubmit. cbn [page env index_mapboxToken].
    destruct (JsString.isEmpty (JsString.trim (token f))) eqn:Ht.
    + cbn. split; [reflexivity|assumption].
    + apply renderIndex_mount; [now apply trim_nonempty|assumption].
  - intros [-> HS].
    assert (Hgen : forall ev',
               let r := render (handleMapPage ev' (e, c)) in
               Inv (mkApp (fst r) (mapboxToken c) (MapPage (snd r)))).
    { intros ev'. destruct (handle_registered ev' e c HS) as [HR HT].
      destruct (handleMapPage ev' (e, c)) as [e1 c1]. cbn [fst snd] in *.
      pose proof (render_registered _ _ HR) as HS'.
      pose proof (render_token e1 c1) as HT'.
      destruct (render (e1, c1)) as [e2 c2]. cbn in *.
      split; [congruence|assumption]. }
    destruct ev;
      try match goal with
          | |- context [render (handleMapPage ?x _)] =>
              specialize (Hgen x); cbv zeta in Hgen;
              destruct (render (handleMapPage x (e, c))); exact Hgen
          end.
    destruct (isErrorScreen (view c)); [apply (boot_inv None)|].
    split; [reflexivity|assumption].
Qed.

Theorem reachable_inv (a : App) : reachable a -> Inv a.
Proof.
  intros (stored & evs & ->). unfold run.
  generalize (boot_inv stored). generalize (boot stored).
  induction evs as [|ev evs IH]; intros a0 H0; cbn; [assumption|].
  apply IH, step_inv, H0.
Qed.

Lemma reachable_boot (stored : option jsstring) : reachable (boot stored).
Proof. exists stored, []. reflexivity. Qed.

Lemma reachable_step (a : App) (ev : Event) :
  reachable a -> reachable (step a ev).
Proof.
  intros (stored & evs & ->). exists stored, (evs ++ [ev]).
  unfold run. now rewrite fold_left_app.
Qed.

End Reachability.

(** ** Events that leave the effect alone *)

Section QuietEvents.

Local Arguments spinGlobe : simpl never.
Local Arguments JsString.trim : simpl never.
Local Arguments JsString.isEmpty : simpl never.
Local Arguments lit : simpl never.
Local Arguments geocodingUrl : simpl never.
Local Arguments URI.encodeURIComponent : simpl never.
Local Arguments popupFor : simpl never.
Local Arguments classifyError : simpl never.
Local Arguments msgInitialized : simpl never.

(** No handler touches the token, the effect's bookkeeping, the node of the
    map, or the log of the engine. *)
Lemma handle_bookkeeping (ev : Event) (e : Env) (c : MapContainer) :
  mapboxToken (snd (handleMapPage ev (e, c))) = mapboxToken c /\
  effectDeps (snd (handleMapPage ev (e, c))) = effectDeps c /\
  mapContainer (snd (handleMapPage ev (e, c))) = mapContainer c /\
  engine (fst (handleMapPage ev (e, c))) = engine e /\
  localStorage (fst (handleMapPage ev (e, c))) = localStorage e /\
  option_map cl_isSpinning (closure (snd (handleMapPage ev (e, c))))
  = option_map cl_isSpinning (closure c).
Proof.
  destruct ev as [| | |mev| | | |o| | | | | |l];
    [ > destruct c as [tok q sp err loaded node m ed cl];
        unfold handleMapPage, handleSearch; cbn;
        try destruct mev; try destruct (pending e);
        try destruct o as [| |[[[|f fs]|]]];
        try destruct (isMainView _);
        try destruct (JsString.isEmpty (JsString.trim q)
                      || JsString.isEmpty tok);
        try destruct (URI.encodeURIComponent q);
        destruct cl as [cl|], m as [m|]; cbn; auto 10 ..
    | ].
  change (handleMapPage (Burst l) (e, c))
    with (fold_left (fun ec x => handleAsync x ec) l (e, c)).
  destruct (burst_framed l (e, c))
    as (F1 & _ & F3 & F4 & F5 & F6 & _ & F8 & _).
  cbn [fst snd] in *. auto 10.
Qed.

Lemma view_deps (c1 c : MapContainer) : deps c1 = deps c -> view c1 = view c.
Proof.
  destruct c1, c. unfold deps, view. cbn. intros H.
  injection H as -> _ ->. reflexivity.
Qed.

(** When the handler leaves the dependencies as they were, React has
    nothing to do: the step is the handler. *)
Lemma step_quiet (a : App) (c : MapContainer) (ev : Event) :
  reachable a -> page a = MapPage c ->
  ev <> ClickEnterNewToken ->
  deps (snd (handleMapPage ev (env a, c))) = deps c ->
  step a ev = mkApp (fst (handleMapPage ev (env a, c))) (index_mapboxToken a)
                    (MapPage (snd (handleMapPage ev (env a, c)))).
Proof.
  intros Hr Hp Hev Hd. apply reachable_inv in Hr. unfold Inv in Hr.
  rewrite Hp in Hr. destruct Hr as [_ HS].
  pose proof (handle_registered ev _ _ HS) as [HR _].
  pose proof (handle_bookkeeping ev (env a) c) as (_ & Hed & Hn & _).
  assert (HS' : Stable (fst (handleMapPage ev (env a, c)))
                       (snd (handleMapPage ev (env a, c)))).
  { destruct HS as (_ & Hd0 & Hn0). split; [assumption|]. split.
    - rewrite Hed, Hd. assumption.
    - rewrite Hn, Hn0. now rewrite (view_deps _ _ Hd). }
  unfold step. rewrite Hp.
  destruct ev; try contradiction;
    destruct (handleMapPage _ (env a, c)) as [e1 c1]; cbn [fst snd] in *;
    rewrite (render_stable _ _ HS'); reflexivity.
Qed.

End QuietEvents.

(** ** The rotation tick (C1) *)

Section RotationTick.

Lemma cons_neq {A : Type} (x : A) (l : list A) : l <> x :: l.
Proof.
  intros H. apply (f_equal (@List.length A)) in H. cbn in H. lia.
Qed.

Lemma baseRate : 360 / secondsPerRevolution = 1.5.
Proof. reflexivity. Qed.

(** The tick on a map that is there: a pan or nothing. *)
Lemma spinGlobe_cases (cl : Closure) (m : MapInstance) :
  let z := getZoom m in
  let go := cl_isSpinning cl && negb (userInteracting cl) && (z <? maxSpinZoom) in
  spinGlobe cl (Some m) =
  Some (if go
        then issue m (EaseTo (mkLngLat (lng (getCenter m) - distancePerSecond z)
                                       (lat (getCenter m)))
                             1000 (fun n => n))
        else m).
Proof.
  cbv zeta. unfold spinGlobe.
  destruct (cl_isSpinning cl && negb (userInteracting cl)
            && (getZoom m <? maxSpinZoom)); reflexivity.
Qed.

End RotationTick.

(** C1. On every rotation tick of the running page (a call of [spinGlobe]
    by a listener of the live map, whatever [userInteracting] is at that
    moment), a pan is issued if and only if rotation is on, the user is not
    interacting and the zoom is below 5. The pan is one [easeTo] of 1000 ms
    with the identity easing, whose longitude is the center's minus the
    distance per second: 360/240 = 1.5 for a zoom of at most 3, 1.5 scaled by
    (5 - z)/(5 - 3) between 3 and 5 (which is 0 at 5), and at a zoom of 5 or
    more nothing is issued at all. *)
Theorem C1_rotation_tick (a : App) (c : MapContainer) (cl : Closure) (ui : bool) :
  reachable a -> page a = MapPage c -> closure c = Some cl ->
  exists m, map c = Some m /\
    let z := getZoom m in
    let r := spinGlobe (set_userInteracting cl ui) (map c) in
    (panIssued m r <->
       isSpinning c = true /\ ui = false /\ (z <? 5) = true) /\
    (panIssued m r ->
       r = Some (issue m (EaseTo (mkLngLat (lng (getCenter m) - distancePerSecond z)
                                           (lat (getCenter m)))
                                 1000 (fun n => n)))) /\
    (~ panIssued m r -> r = Some m) /\
    ((z <=? 3) = true -> distancePerSecond z = 1.5) /\
    ((3 <? z) = true -> (z <? 5) = true ->
       distancePerSecond z = 1.5 * ((5 - z) / (5 - 3))) /\
    1.5 * ((5 - 5) / (5 - 3)) = 0 /\
    ((5 <=? z) = true -> r = Some m).
Proof.
  intros Hr Hp Hcl. apply reachable_inv in Hr. unfold Inv in Hr.
  rewrite Hp in Hr. destruct Hr as [_ HS].
  destruct (stable_closure _ _ _ HS Hcl) as (m & Hm & _ & Hsp & _).
  exists m. split; [assumption|]. cbv zeta. rewrite Hm, spinGlobe_cases.
  cbn [cl_isSpinning userInteracting set_userInteracting]. rewrite Hsp.
  unfold panIssued. change maxSpinZoom with 5.
  assert (Hiff : isSpinning c && negb ui && (getZoom m <? 5) = true <->
                 isSpinning c = true /\ ui = false /\ (getZoom m <? 5) = true).
  { rewrite !andb_true_iff, negb_true_iff. tauto. }
  assert (Hslow : (getZoom m <=? 3) = true -> distancePerSecond (getZoom m) = 1.5).
  { intros Hle. unfold distancePerSecond. change slowSpinZoom with 3.
    now rewrite (leb_not_gtb _ _ Hle). }
  assert (Hfade : (3 <? getZoom m) = true -> (getZoom m <? 5) = true ->
                  distancePerSecond (getZoom m) = 1.5 * ((5 - getZoom m) / (5 - 3))).
  { intros Hgt _. unfold distancePerSecond. change slowSpinZoom with 3.
    now rewrite Hgt. }
  destruct (isSpinning c && negb ui && (getZoom m <? 5)) eqn:Hgo.
  - assert (Hyes : exists c0 d f,
               option_map commands
                 (Some (issue m (EaseTo (mkLngLat (lng (getCenter m)
                                                   - distancePerSecond (getZoom m))
                                                  (lat (getCenter m)))
                                        1000 (fun n => n))))
               = Some (EaseTo c0 d f :: commands m))
      by (do 3 eexists; reflexivity).
    split; [split; [intros _; now apply Hiff|intros _; exact Hyes]|].
    split; [reflexivity|].
    split; [intros Hn; contradiction|].
    split; [exact Hslow|]. split; [exact Hfade|]. split; [reflexivity|].
    intros Hge. apply leb_not_gtb in Hge.
    destruct (proj1 Hiff eq_refl) as (_ & _ & Hlt). congruence.
  - assert (Hno : ~ (exists c0 d f,
                 option_map commands (Some m) = Some (EaseTo c0 d f :: commands m))).
    { intros (c0 & d & f & H). cbn in H. injection H as H.
      exact (cons_neq _ _ H). }
    split; [split; [intros H; contradiction|intros H; apply Hiff in H; discriminate]|].
    split; [intros H; contradiction|].
    split; [reflexivity|].
    split; [exact Hslow|]. split; [exact Hfade|]. split; reflexivity.
Qed.

Lemma C1_rotation_tick_witness :
  exists m, map (containerOf loadedApp) = Some m /\
    let z := getZoom m in
    let r := spinGlobe (set_userInteracting (mkClosure true false) false)
                       (map (containerOf loadedApp)) in
    (panIssued m r <->
       isSpinning (containerOf loadedApp) = true /\ false = false
       /\ (z <? 5) = true) /\
    (panIssued m r ->
       r = Some (issue m (EaseTo (mkLngLat (lng (getCenter m) - distancePerSecond z)
                                           (lat (getCenter m)))
                                 1000 (fun n => n)))) /\
    (~ panIssued m r -> r = Some m) /\
    ((z <=? 3) = true -> distancePerSecond z = 1.5) /\
    ((3 <? z) = true -> (z <? 5) = true ->
       distancePerSecond z = 1.5 * ((5 - z) / (5 - 3))) /\
    1.5 * ((5 - 5) / (5 - 3)) = 0 /\
    ((5 <=? z) = true -> r = Some m).
Proof.
  apply (C1_rotation_tick loadedApp (containerOf loadedApp)
                          (mkClosure true false) false).
  - exists None, [TypeToken (lit "pk.abc"); SubmitToken; Engine load].
    reflexivity.
  - vm_compute. reflexivity.
  - vm_compute. reflexivity.
Defined.

(** ** Submitting a token (C2, C5, C10) *)

Section TokenSubmission.

Lemma form_token_empty (a : App) (f : TokenInput) :
  reachable a -> page a = TokenForm f -> index_mapboxToken a = [].
Proof.
  intros Hreach Hpage. apply reachable_inv in Hreach. unfold Inv in Hreach.
  rewrite Hpage in Hreach. apply Hreach.
Qed.

Lemma submit_empty (a : App) (f : TokenInput) :
  reachable a -> page a = TokenForm f ->
  JsString.isEmpty (JsString.trim (token f)) = true ->
  step a SubmitToken =
  mkApp (toast (env a) TError (lit "Please enter a valid Mapbox token"))
        (index_mapboxToken a) (page a).
Proof.
  intros Hreach Hpage Ht. unfold step, handleSubmit. rewrite Hpage, Ht.
  unfold renderIndex. cbn [index_mapboxToken page env].
  rewrite (form_token_empty a f Hreach Hpage). reflexivity.
Qed.

Lemma submit_handler (a : App) (f : TokenInput) :
  JsString.isEmpty (JsString.trim (token f)) = false ->
  handleSubmit f a = mkApp (saved a f) (token f) (page a).
Proof. intros Ht. unfold handleSubmit. rewrite Ht. reflexivity. Qed.

Lemma submit_nonempty (a : App) (f : TokenInput) :
  page a = TokenForm f ->
  JsString.isEmpty (JsString.trim (token f)) = false ->
  step a SubmitToken =
  mkApp (fst (render (saved a f, mount (token f)))) (token f)
        (MapPage (snd (render (saved a f, mount (token f))))).
Proof.
  intros Hpage Ht. unfold step. rewrite Hpage, (submit_handler a f Ht).
  unfold renderIndex. cbn [index_mapboxToken page env].
  rewrite (trim_nonempty _ Ht), Hpage.
  destruct (render (saved a f, mount (token f))). reflexivity.
Qed.

Lemma submit_bad (a : App) (f : TokenInput) :
  page a = TokenForm f ->
  JsString.isEmpty (JsString.trim (token f)) = false ->
  JsString.startsWith (token f) (lit "pk.") = false ->
  step a SubmitToken =
  mkApp (saved a f) (token f)
        (MapPage (mkContainer (token f) [] true msgInvalidFormat false false
                              None (Some (token f, true, msgInvalidFormat))
                              None)).
Proof.
  intros Hpage Ht Hpk. rewrite (submit_nonempty a f Hpage Ht).
  rewrite (render_badToken (saved a f) (mount (token f)));
    [reflexivity|discriminate|exact (trim_nonempty _ Ht)|reflexivity|exact Hpk].
Qed.

Lemma submit_good (a : App) (f : TokenInput) :
  page a = TokenForm f ->
  JsString.isEmpty (JsString.trim (token f)) = false ->
  JsString.startsWith (token f) (lit "pk.") = true ->
  step a SubmitToken =
  mkApp (call (saved a f) (CreateMap (token f))) (token f)
        (MapPage (mkContainer (token f) [] true [] false true
                    (spinGlobe (mkClosure true false)
                       (Some (addControl (newMap (token f))
                                         (mkNav true (lit "top-right")))))
                    (Some (token f, true, [])) (Some (mkClosure true false)))).
Proof.
  intros Hpage Ht Hpk. rewrite (submit_nonempty a f Hpage Ht).
  rewrite (render_create (saved a f) (mount (token f)));
    [reflexivity|discriminate|exact (trim_nonempty _ Ht)|reflexivity|exact Hpk].
Qed.

End TokenSubmission.

(** A token that begins with white space does not begin with "pk.". *)
Lemma leading_space_no_prefix (w : N) (rest : jsstring) :
  JsString.isWhiteSpace w = true ->
  JsString.startsWith (w :: rest) (lit "pk.") = false.
Proof.
  intros Hw.
  change (JsString.startsWith (w :: rest) (lit "pk."))
    with ((112 =? w)%N && JsString.startsWith rest (lit "k.")).
  destruct (112 =? w)%N eqn:E; [|reflexivity].
  apply N.eqb_eq in E. subst w. discriminate.
Qed.

(** C2. A submitted token that is not empty after trimming and does not
    start with "pk." is written to the store by the handler, before anything
    looks at its format; the map page that follows goes straight to the error
    screen with the invalid-format message, and no map is created: the
    engine is not called and nothing is fetched. *)
Theorem C2_invalid_prefix (a : App) (f : TokenInput) :
  page a = TokenForm f ->
  JsString.isEmpty (JsString.trim (token f)) = false ->
  JsString.startsWith (token f) (lit "pk.") = false ->
  (localStorage (env (handleSubmit f a)) = Some (token f)
   /\ page (handleSubmit f a) = TokenForm f) /\
  exists c, page (step a SubmitToken) = MapPage c /\
    localStorage (env (step a SubmitToken)) = Some (token f) /\
    mapError c = msgInvalidFormat /\
    view c = ErrorScreen /\
    map c = None /\ closure c = None /\
    engine (env (step a SubmitToken)) = engine (env a) /\
    requests (env (step a SubmitToken)) = requests (env a).
Proof.
  intros Hp Ht Hpk. split.
  - rewrite (submit_handler a f Ht). split; [reflexivity|exact Hp].
  - rewrite (submit_bad a f Hp Ht Hpk). eexists. split; [reflexivity|].
    cbn. unfold view. cbn. rewrite (trim_nonempty _ Ht). repeat split.
Qed.

Lemma C2_invalid_prefix_witness :
  (localStorage (env (handleSubmit (mkTokenInput (lit "abc123") false)
                                   (typed (lit "abc123"))))
   = Some (lit "abc123")
   /\ page (handleSubmit (mkTokenInput (lit "abc123") false)
                         (typed (lit "abc123")))
      = TokenForm (mkTokenInput (lit "abc123") false)) /\
  exists c, page (step (typed (lit "abc123")) SubmitToken) = MapPage c /\
    localStorage (env (step (typed (lit "abc123")) SubmitToken))
    = Some (lit "abc123") /\
    mapError c = msgInvalidFormat /\
    view c = ErrorScreen /\
    map c = None /\ closure c = None /\
    engine (env (step (typed (lit "abc123")) SubmitToken))
    = engine (env (typed (lit "abc123"))) /\
    requests (env (step (typed (lit "abc123")) SubmitToken))
    = requests (env (typed (lit "abc123"))).
Proof.
  apply (C2_invalid_prefix (typed (lit "abc123"))
                           (mkTokenInput (lit "abc123") false)).
  - reflexivity.
  - reflexivity.
  - reflexivity.
Defined.

(** C5. Submitting a candidate that is empty after trimming only shows an
    error message: the store, the token of [Index] and the page stay as they
    are. Any candidate that is not empty after trimming is written to the
    store and moves the application from the token form to the map page,
    whatever else it looks like. *)
Theorem C5_submitToken (a : App) (f : TokenInput) :
  reachable a -> page a = TokenForm f ->
  (JsString.isEmpty (JsString.trim (token f)) = true ->
     step a SubmitToken =
     mkApp (toast (env a) TError (lit "Please enter a valid Mapbox token"))
           (index_mapboxToken a) (page a)
     /\ localStorage (env (step a SubmitToken)) = localStorage (env a)) /\
  (JsString.isEmpty (JsString.trim (token f)) = false ->
     index_mapboxToken a = [] /\
     localStorage (env (step a SubmitToken)) = Some (token f) /\
     index_mapboxToken (step a SubmitToken) = token f /\
     exists c, page (step a SubmitToken) = MapPage c /\
               mapboxToken c = token f).
Proof.
  intros Hr Hp. split; intros Ht.
  - rewrite (submit_empty a f Hr Hp Ht). split; reflexivity.
  - split; [exact (form_token_empty a f Hr Hp)|].
    destruct (JsString.startsWith (token f) (lit "pk.")) eqn:Hpk.
    + rewrite (submit_good a f Hp Ht Hpk).
      repeat split. eexists. split; reflexivity.
    + rewrite (submit_bad a f Hp Ht Hpk).
      repeat split. eexists. split; reflexivity.
Qed.

Lemma C5_submitToken_witness :
  (JsString.isEmpty (JsString.trim (token (mkTokenInput (lit "  ") false))) = true ->
     step (typed (lit "  ")) SubmitToken =
     mkApp (toast (env (typed (lit "  "))) TError
                  (lit "Please enter a valid Mapbox token"))
           (index_mapboxToken (typed (lit "  "))) (page (typed (lit "  ")))
     /\ localStorage (env (step (typed (lit "  ")) SubmitToken))
        = localStorage (env (typed (lit "  ")))) /\
  (JsString.isEmpty (JsString.trim (token (mkTokenInput (lit "  ") false))) = false ->
     index_mapboxToken (typed (lit "  ")) = [] /\
     localStorage (env (step (typed (lit "  ")) SubmitToken))
     = Some (token (mkTokenInput (lit "  ") false)) /\
     index_mapboxToken (step (typed (lit "  ")) SubmitToken)
     = token (mkTokenInput (lit "  ") false) /\
     exists c, page (step (typed (lit "  ")) SubmitToken) = MapPage c /\
               mapboxToken c = token (mkTokenInput (lit "  ") false)).
Proof.
  apply (C5_submitToken (typed (lit "  ")) (mkTokenInput (lit "  ") false)).
  - exists None, [TypeToken (lit "  ")]. reflexivity.
  - reflexivity.
Defined.

(** C10. What is stored and handed to [Index] and the map is the candidate
    as typed, not its trimmed form: only the emptiness test looks at the
    trimmed string. So a candidate that begins with white space is accepted,
    stored with the white space, and then fails the "pk." test of the map,
    also when its trimmed form starts with "pk."; the candidate " pk.abc" is
    one. *)
Theorem C10_verbatim_token (a : App) (f : TokenInput) :
  page a = TokenForm f ->
  JsString.isEmpty (JsString.trim (token f)) = false ->
  (localStorage (env (step a SubmitToken)) = Some (token f) /\
   index_mapboxToken (step a SubmitToken) = token f /\
   exists c, page (step a SubmitToken) = MapPage c /\ mapboxToken c = token f) /\
  (forall w rest,
     token f = w :: rest -> JsString.isWhiteSpace w = true ->
     exists c, page (step a SubmitToken) = MapPage c /\
               mapError c = msgInvalidFormat /\ map c = None /\
               engine (env (step a SubmitToken)) = engine (env a)) /\
  (exists w rest,
     JsString.isWhiteSpace w = true /\
     JsString.isEmpty (JsString.trim (w :: rest)) = false /\
     JsString.startsWith (JsString.trim (w :: rest)) (lit "pk.") = true).
Proof.
  intros Hp Ht. split; [|split].
  - destruct (JsString.startsWith (token f) (lit "pk.")) eqn:Hpk.
    + rewrite (submit_good a f Hp Ht Hpk).
      repeat split. eexists. split; reflexivity.
    + rewrite (submit_bad a f Hp Ht Hpk).
      repeat split. eexists. split; reflexivity.
  - intros w rest E Hw.
    assert (Hpk : JsString.startsWith (token f) (lit "pk.") = false)
      by (rewrite E; now apply leading_space_no_prefix).
    rewrite (submit_bad a f Hp Ht Hpk). eexists. repeat split.
  - exists 32%N, (lit "pk.abc"). repeat split.
Qed.

Lemma C10_verbatim_token_witness :
  (localStorage (env (step (typed (lit " pk.abc")) SubmitToken))
   = Some (lit " pk.abc") /\
   index_mapboxToken (step (typed (lit " pk.abc")) SubmitToken)
   = lit " pk.abc" /\
   exists c, page (step (typed (lit " pk.abc")) SubmitToken) = MapPage c /\
             mapboxToken c = lit " pk.abc") /\
  (forall w rest,
     lit " pk.abc" = w :: rest -> JsString.isWhiteSpace w = true ->
     exists c, page (step (typed (lit " pk.abc")) SubmitToken) = MapPage c /\
               mapError c = msgInvalidFormat /\ map c = None /\
               engine (env (step (typed (lit " pk.abc")) SubmitToken))
               = engine (env (typed (lit " pk.abc")))) /\
  (exists w rest,
     JsString.isWhiteSpace w = true /\
     JsString.isEmpty (JsString.trim (w :: rest)) = false /\
     JsString.startsWith (JsString.trim (w :: rest)) (lit "pk.") = true).
Proof.
  apply (C10_verbatim_token (typed (lit " pk.abc"))
                            (mkTokenInput (lit " pk.abc") false)).
  - reflexivity.
  - reflexivity.
Defined.

(** ** Events that change a dependency of the effect *)

Section Rerun.

Variables (a : App) (c : MapContainer) (ev : Event).
Hypothesis Hreach : reachable a.
Hypothesis Hpage : page a = MapPage c.
Hypothesis Hmain : isMainView (view c) = true.
Hypothesis Hev : ev <> ClickEnterNewToken.
Hypothesis Hdeps : deps (snd (handleMapPage ev (env a, c))) <> deps c.

Lemma rerun_facts :
  effectDeps (snd (handleMapPage ev (env a, c)))
  <> Some (deps (snd (handleMapPage ev (env a, c)))) /\
  JsString.isEmpty (mapboxToken c) = false /\
  JsString.startsWith (mapboxToken c) (lit "pk.") = true /\
  exists cl m, closure (snd (handleMapPage ev (env a, c))) = Some cl /\
               map (snd (handleMapPage ev (env a, c))) = Some m.
Proof.
  pose proof (reachable_inv _ Hreach) as HI. unfold Inv in HI.
  rewrite Hpage in HI. destruct HI as [_ HS].
  pose proof (handle_registered ev _ _ HS) as [(_ & _ & HR) _].
  pose proof (handle_bookkeeping ev (env a) c) as (_ & Hed & _ & _ & _ & Hk).
  destruct (stable_main _ _ HS Hmain) as (cl & Ecl).
  destruct (stable_closure _ _ _ HS Ecl) as (m & _ & _ & _ & _ & Hpk).
  destruct HS as ((Htok & _) & Hd0 & _).
  split; [|split; [exact Htok|split; [exact Hpk|]]].
  - rewrite Hed, Hd0. intros H. apply Hdeps. congruence.
  - rewrite Ecl in Hk.
    destruct (closure (snd (handleMapPage ev (env a, c)))) as [cl'|];
      [|discriminate].
    destruct HR as (m' & Em' & _). eauto.
Qed.

(** With no error to show, the old map is removed and a new one built. *)
Lemma step_rerun_create :
  mapError (snd (handleMapPage ev (env a, c))) = [] ->
  let h := handleMapPage ev (env a, c) in
  let cl := mkClosure (isSpinning (snd h)) false in
  step a ev =
  mkApp (call (call (fst h) RemoveMap) (CreateMap (mapboxToken c)))
        (index_mapboxToken a)
        (MapPage
           (mkContainer (mapboxToken c) (searchQuery (snd h))
              (isSpinning (snd h)) [] (isMapLoaded (snd h)) true
              (spinGlobe cl (Some (addControl (newMap (mapboxToken c))
                                              (mkNav true (lit "top-right")))))
              (Some (mapboxToken c, isSpinning (snd h), []))
              (Some cl))).
Proof.
  intros Herr. cbv zeta.
  destruct rerun_facts as (Hre & Htok & Hpk & cl & m & Ecl & Em).
  pose proof (handle_bookkeeping ev (env a) c) as (Ht & _).
  unfold step. rewrite Hpage.
  assert (Hrender :
            render (handleMapPage ev (env a, c)) =
            (call (call (fst (handleMapPage ev (env a, c))) RemoveMap)
                  (CreateMap (mapboxToken c)),
             mkContainer (mapboxToken c)
               (searchQuery (snd (handleMapPage ev (env a, c))))
               (isSpinning (snd (handleMapPage ev (env a, c)))) []
               (isMapLoaded (snd (handleMapPage ev (env a, c)))) true
               (spinGlobe
                  (mkClosure (isSpinning (snd (handleMapPage ev (env a, c)))) false)
                  (Some (addControl (newMap (mapboxToken c))
                                    (mkNav true (lit "top-right")))))
               (Some (mapboxToken c,
                      isSpinning (snd (handleMapPage ev (env a, c))), []))
               (Some (mkClosure
                        (isSpinning (snd (handleMapPage ev (env a, c)))) false)))).
  { destruct (handleMapPage ev (env a, c)) as [e1 c1]. cbn [fst snd] in *.
    rewrite (render_create e1 c1 Hre); try congruence.
    unfold cleanedEnv, cleanup, deps. rewrite Ecl, Em, Ht, Herr. reflexivity. }
  destruct ev; try contradiction; rewrite Hrender; reflexivity.
Qed.

(** With an error to show, the map is removed and none is built. *)
Lemma step_rerun_error :
  mapError (snd (handleMapPage ev (env a, c))) <> [] ->
  let h := handleMapPage ev (env a, c) in
  step a ev =
  mkApp (call (fst h) RemoveMap) (index_mapboxToken a)
        (MapPage
           (mkContainer (mapboxToken c) (searchQuery (snd h))
              (isSpinning (snd h)) (mapError (snd h)) (isMapLoaded (snd h))
              false (option_map remove (map (snd h)))
              (Some (deps (snd h))) None)).
Proof.
  intros Herr. cbv zeta.
  destruct rerun_facts as (Hre & Htok & Hpk & cl & m & Ecl & Em).
  pose proof (handle_bookkeeping ev (env a) c) as (Ht & _).
  unfold step. rewrite Hpage.
  assert (Hrender :
            render (handleMapPage ev (env a, c)) =
            (call (fst (handleMapPage ev (env a, c))) RemoveMap,
             mkContainer (mapboxToken c)
               (searchQuery (snd (handleMapPage ev (env a, c))))
               (isSpinning (snd (handleMapPage ev (env a, c))))
               (mapError (snd (handleMapPage ev (env a, c))))
               (isMapLoaded (snd (handleMapPage ev (env a, c)))) false
               (option_map remove (map (snd (handleMapPage ev (env a, c)))))
               (Some (deps (snd (handleMapPage ev (env a, c))))) None)).
  { destruct (handleMapPage ev (env a, c)) as [e1 c1]. cbn [fst snd] in *.
    rewrite (render_error e1 c1 Hre); try congruence.
    unfold cleanedEnv, cleanedMap, cleanup. rewrite Ecl, Em, Ht.
    reflexivity. }
  destruct ev; try contradiction; rewrite Hrender; reflexivity.
Qed.

End Rerun.

(** ** Search (C3, C4) *)

Section Search.

Lemma lngLat_eta (p : LngLat) : mkLngLat (lng p) (lat p) = p.
Proof. destruct p. reflexivity. Qed.

Lemma popup_has_label (label : jsstring) :
  JsString.includes (popupFor label) label = true.
Proof.
  unfold popupFor. rewrite !app_assoc.
  rewrite <- (app_assoc _ label). apply includes_app.
Qed.

Lemma map_page_token (a : App) (c : MapContainer) :
  reachable a -> page a = MapPage c ->
  JsString.isEmpty (mapboxToken c) = false.
Proof.
  intros Hr Hp. apply reachable_inv in Hr. unfold Inv in Hr.
  rewrite Hp in Hr. apply Hr.
Qed.

Lemma main_view_map (a : App) (c : MapContainer) :
  reachable a -> page a = MapPage c -> isMainView (view c) = true ->
  exists cl m, closure c = Some cl /\ map c = Some m /\ removed m = false /\
               cl_isSpinning cl = isSpinning c /\ mapError c = [] /\
               JsString.startsWith (mapboxToken c) (lit "pk.") = true.
Proof.
  intros Hr Hp Hv. apply reachable_inv in Hr. unfold Inv in Hr.
  rewrite Hp in Hr. destruct Hr as [_ HS].
  destruct (stable_main _ _ HS Hv) as (cl & Ecl).
  destruct (stable_closure _ _ _ HS Ecl) as (m & H).
  exists cl, m. tauto.
Qed.

(** Submitting a query that can be sent: one request, nothing else. *)
Lemma step_submitSearch (a : App) (c : MapContainer) (q : jsstring) :
  reachable a -> page a = MapPage c -> isMainView (view c) = true ->
  JsString.isEmpty (JsString.trim (searchQuery c)) = false ->
  URI.encodeURIComponent (searchQuery c) = Some q ->
  step a SubmitSearch =
  mkApp (fetch (env a) (geocodingUrl q (mapboxToken c)))
        (index_mapboxToken a) (MapPage c).
Proof.
  intros Hr Hp Hv Hq Henc.
  assert (H : handleMapPage SubmitSearch (env a, c) =
              (fetch (env a) (geocodingUrl q (mapboxToken c)), c)).
  { unfold handleMapPage, handleSearch.
    now rewrite Hv, Hq, (map_page_token a c Hr Hp), Henc. }
  rewrite (step_quiet a c SubmitSearch Hr Hp);
    [rewrite H; reflexivity|discriminate|rewrite H; reflexivity].
Qed.

(** A settled request, when one is pending: the step is the continuation
    of [handleSearch]. *)
Lemma step_settled (a : App) (c : MapContainer) (o : FetchOutcome) :
  reachable a -> page a = MapPage c -> pending (env a) <> 0%nat ->
  step a (SearchSettled o) =
  mkApp (fst (handleSearch_settled o (settle (env a), c)))
        (index_mapboxToken a)
        (MapPage (snd (handleSearch_settled o (settle (env a), c)))).
Proof.
  intros Hr Hp Hn.
  assert (H : handleMapPage (SearchSettled o) (env a, c) =
              handleSearch_settled o (settle (env a), c)).
  { unfold handleMapPage. destruct (pending (env a)); [contradiction|reflexivity]. }
  rewrite (step_quiet a c (SearchSettled o) Hr Hp);
    [rewrite H; reflexivity|discriminate|rewrite H].
  unfold handleSearch_settled.
  destruct o as [| |[[[|f fs]|]]]; try reflexivity.
  cbn [features]. destruct (map c); reflexivity.
Qed.

Lemma step_found (a : App) (c : MapContainer) (m : MapInstance)
      (f : Feature) (rest : list Feature) :
  reachable a -> page a = MapPage c -> pending (env a) <> 0%nat ->
  map c = Some m ->
  step a (SearchSettled (Json (mkGeoData (Some (f :: rest))))) =
  mkApp (toast (settle (env a)) TSuccess (lit "Found: " ++ place_name f))
        (index_mapboxToken a)
        (MapPage (set_map c (Some (found m f)))).
Proof.
  intros Hr Hp Hn Hm. rewrite (step_settled a c _ Hr Hp Hn).
  unfold handleSearch_settled. cbn [features]. rewrite Hm. reflexivity.
Qed.

End Search.

(** C3. In the main view, every response with at least one candidate to a
    pending search makes the handler ask for a [flyTo] to the first
    candidate's coordinates at zoom 12 over 2000 ms, and add exactly one
    marker there whose popup contains the candidate's label; nothing is
    removed. Two successful searches in a row, the second submitted after the
    first has settled or both in flight together, leave two more markers than
    at the start, all the earlier ones still there. *)
Theorem C3_search_success (a : App) (c : MapContainer)
        (f1 : Feature) (rest1 : list Feature)
        (f2 : Feature) (rest2 : list Feature) :
  reachable a -> page a = MapPage c -> isMainView (view c) = true ->
  pending (env a) <> 0%nat ->
  let ok1 := SearchSettled (Json (mkGeoData (Some (f1 :: rest1)))) in
  let ok2 := SearchSettled (Json (mkGeoData (Some (f2 :: rest2)))) in
  exists m, map c = Some m /\
    (exists m1,
        mapOf (step a ok1) = Some m1 /\
        commands m1 = FlyTo (f_center f1) 12 None 2000 :: commands m /\
        markers m1 = markerFor f1 :: markers m /\
        lngLat (markerFor f1) = f_center f1 /\
        JsString.includes (popupHTML (markerFor f1)) (place_name f1) = true /\
        List.length (markers m1) = S (List.length (markers m)) /\
        camera m1 = camera m /\ removed m1 = false) /\
    (forall q,
        JsString.isEmpty (JsString.trim (searchQuery c)) = false ->
        URI.encodeURIComponent (searchQuery c) = Some q ->
        exists m2,
          mapOf (run a [ok1; SubmitSearch; ok2]) = Some m2 /\
          markers m2 = markerFor f2 :: markerFor f1 :: markers m /\
          List.length (markers m2) = (2 + List.length (markers m))%nat) /\
    ((2 <= pending (env a))%nat ->
     exists m2,
       mapOf (run a [ok1; ok2]) = Some m2 /\
       markers m2 = markerFor f2 :: markerFor f1 :: markers m /\
       List.length (markers m2) = (2 + List.length (markers m))%nat).
Proof.
  intros Hr Hp Hv Hn ok1 ok2.
  destruct (main_view_map a c Hr Hp Hv) as (cl & m & _ & Hm & Hrem & _).
  exists m. split; [assumption|].
  (* the first response *)
  pose proof (step_found a c m f1 rest1 Hr Hp Hn Hm) as S1.
  fold ok1 in S1. set (a1 := step a ok1) in *.
  assert (R1 : reachable a1) by now apply reachable_step.
  assert (P1 : page a1 = MapPage (set_map c (Some (found m f1))))
    by now rewrite S1.
  split; [|split].
  - exists (found m f1). unfold mapOf, containerOf. rewrite P1.
    unfold found, markerFor. cbn. rewrite lngLat_eta.
    repeat split; auto. apply popup_has_label.
  - (* a second search, submitted after the first has settled *)
    intros q Hq Henc.
    pose proof (step_submitSearch a1 _ q R1 P1 Hv Hq Henc) as S2.
    set (a2 := step a1 SubmitSearch) in *.
    assert (R2 : reachable a2) by now apply reachable_step.
    assert (P2 : page a2 = MapPage (set_map c (Some (found m f1))))
      by now rewrite S2.
    assert (N2 : pending (env a2) <> 0%nat) by (rewrite S2; discriminate).
    pose proof (step_found a2 _ (found m f1) f2 rest2 R2 P2 N2 eq_refl) as S3.
    fold ok2 in S3.
    exists (found (found m f1) f2).
    change (run a [ok1; SubmitSearch; ok2]) with (step a2 ok2).
    unfold mapOf, containerOf. rewrite S3. cbn. repeat split.
  - (* two requests in flight, settling one after the other *)
    intros Hn2.
    assert (N1 : pending (env a1) <> 0%nat).
    { rewrite S1. cbn. destruct (pending (env a)) as [|[|k]]; [lia|lia|discriminate]. }
    pose proof (step_found a1 _ (found m f1) f2 rest2 R1 P1 N1 eq_refl) as S2.
    fold ok2 in S2.
    exists (found (found m f1) f2).
    change (run a [ok1; ok2]) with (step a1 ok2).
    unfold mapOf, containerOf. rewrite S2. cbn. repeat split.
Qed.

Lemma C3_search_success_witness :
  let ok1 := SearchSettled (Json (mkGeoData (Some [paris]))) in
  let ok2 := SearchSettled (Json (mkGeoData (Some [lyon]))) in
  exists m, map (containerOf waitingApp) = Some m /\
    (exists m1,
        mapOf (step waitingApp ok1) = Some m1 /\
        commands m1 = FlyTo (f_center paris) 12 None 2000 :: commands m /\
        markers m1 = markerFor paris :: markers m /\
        lngLat (markerFor paris) = f_center paris /\
        JsString.includes (popupHTML (markerFor paris)) (place_name paris) = true /\
        List.length (markers m1) = S (List.length (markers m)) /\
        camera m1 = camera m /\ removed m1 = false) /\
    (forall q,
        JsString.isEmpty (JsString.trim (searchQuery (containerOf waitingApp)))
        = false ->
        URI.encodeURIComponent (searchQuery (containerOf waitingApp)) = Some q ->
        exists m2,
          mapOf (run waitingApp [ok1; SubmitSearch; ok2]) = Some m2 /\
          markers m2 = markerFor lyon :: markerFor paris :: markers m /\
          List.length (markers m2) = (2 + List.length (markers m))%nat) /\
    ((2 <= pending (env waitingApp))%nat ->
     exists m2,
       mapOf (run waitingApp [ok1; ok2]) = Some m2 /\
       markers m2 = markerFor lyon :: markerFor paris :: markers m /\
       List.length (markers m2) = (2 + List.length (markers m))%nat).
Proof.
  apply (C3_search_success waitingApp (containerOf waitingApp)
                           paris [] lyon []).
  - exists None, [TypeToken (lit "pk.abc"); SubmitToken; Engine load;
                  TypeQuery (lit "Paris"); SubmitSearch].
    reflexivity.
  - vm_compute. reflexivity.
  - vm_compute. reflexivity.
  - vm_compute. discriminate.
Defined.

(** C4. A search with a query that is empty after trimming, or without a
    token, does nothing at all: no request, no message. A response without
    candidates is answered with "Location not found", a failed transport or
    a body that does not parse with "Search failed"; and whenever a search
    ends in an error message the container, and with it the map's camera,
    commands and markers, is what it was. *)
Theorem C4_search_errors (a : App) (c : MapContainer) :
  reachable a -> page a = MapPage c ->
  (forall e c0,
      JsString.isEmpty (JsString.trim (searchQuery c0)) = true
      \/ JsString.isEmpty (mapboxToken c0) = true ->
      handleSearch (e, c0) = (e, c0)) /\
  (JsString.isEmpty (JsString.trim (searchQuery c)) = true
   \/ JsString.isEmpty (mapboxToken c) = true ->
   step a SubmitSearch = a) /\
  (forall d,
      features d = Some [] \/ features d = None ->
      pending (env a) <> 0%nat ->
      step a (SearchSettled (Json d)) =
      mkApp (toast (settle (env a)) TError (lit "Location not found"))
            (index_mapboxToken a) (MapPage c)) /\
  (forall o,
      o = FetchRejected \/ o = JsonRejected ->
      pending (env a) <> 0%nat ->
      step a (SearchSettled o) =
      mkApp (toast (settle (env a)) TError (lit "Search failed"))
            (index_mapboxToken a) (MapPage c)) /\
  (forall ev msg,
      ev = SubmitSearch \/ (exists o, ev = SearchSettled o) ->
      toasts (env (step a ev)) = mkToast TError msg :: toasts (env a) ->
      page (step a ev) = MapPage c).
Proof.
  intros Hr Hp.
  assert (Hnoop : forall e c0,
             JsString.isEmpty (JsString.trim (searchQuery c0)) = true
             \/ JsString.isEmpty (mapboxToken c0) = true ->
             handleSearch (e, c0) = (e, c0)).
  { intros e c0 H. unfold handleSearch.
    destruct H as [-> | ->]; [reflexivity|now rewrite orb_true_r]. }
  assert (Hsubmit : JsString.isEmpty (JsString.trim (searchQuery c)) = true
                    \/ JsString.isEmpty (mapboxToken c) = true ->
                    step a SubmitSearch = a).
  { intros H.
    assert (E : handleMapPage SubmitSearch (env a, c) = (env a, c)).
    { unfold handleMapPage. rewrite (Hnoop _ _ H).
      destruct (isMainView (view c)); reflexivity. }
    rewrite (step_quiet a c SubmitSearch Hr Hp);
      [rewrite E|discriminate|rewrite E; reflexivity].
    destruct a; cbn in *. now subst. }
  split; [exact Hnoop|]. split; [exact Hsubmit|]. split; [|split].
  - intros d Hd Hn. rewrite (step_settled a c _ Hr Hp Hn).
    unfold handleSearch_settled. destruct Hd as [-> | ->]; reflexivity.
  - intros o Ho Hn. rewrite (step_settled a c _ Hr Hp Hn).
    destruct Ho as [-> | ->]; reflexivity.
  - intros ev msg Hev Ht. destruct Hev as [-> | [o ->]].
    + assert (E : snd (handleMapPage SubmitSearch (env a, c)) = c).
      { unfold handleMapPage, handleSearch.
        destruct (isMainView (view c)); [|reflexivity].
        destruct (_ || _); [reflexivity|].
        destruct (URI.encodeURIComponent (searchQuery c)); reflexivity. }
      rewrite (step_quiet a c SubmitSearch Hr Hp);
        [cbn [page]; now rewrite E|discriminate|now rewrite E].
    + destruct (pending (env a)) eqn:Hn.
      * unfold step. rewrite Hp. unfold handleMapPage. rewrite Hn.
        pose proof (reachable_inv _ Hr) as HI. unfold Inv in HI.
        rewrite Hp in HI. destruct HI as [_ HS].
        rewrite (render_stable _ _ HS). reflexivity.
      * assert (Hn' : pending (env a) <> 0%nat) by (rewrite Hn; discriminate).
        rewrite (step_settled a c o Hr Hp Hn') in *.
        cbn [env page] in *. revert Ht. unfold handleSearch_settled.
        destruct o as [| |[[[|f fs]|]]]; try reflexivity.
        cbn [features]. destruct (map c); [|reflexivity].
        cbn. discriminate.
Qed.

Lemma C4_search_errors_witness :
  (forall e c0,
      JsString.isEmpty (JsString.trim (searchQuery c0)) = true
      \/ JsString.isEmpty (mapboxToken c0) = true ->
      handleSearch (e, c0) = (e, c0)) /\
  (JsString.isEmpty (JsString.trim (searchQuery (containerOf waitingApp))) = true
   \/ JsString.isEmpty (mapboxToken (containerOf waitingApp)) = true ->
   step waitingApp SubmitSearch = waitingApp) /\
  (forall d,
      features d = Some [] \/ features d = None ->
      pending (env waitingApp) <> 0%nat ->
      step waitingApp (SearchSettled (Json d)) =
      mkApp (toast (settle (env waitingApp)) TError (lit "Location not found"))
            (index_mapboxToken waitingApp) (MapPage (containerOf waitingApp))) /\
  (forall o,
      o = FetchRejected \/ o = JsonRejected ->
      pending (env waitingApp) <> 0%nat ->
      step waitingApp (SearchSettled o) =
      mkApp (toast (settle (env waitingApp)) TError (lit "Search failed"))
            (index_mapboxToken waitingApp) (MapPage (containerOf waitingApp))) /\
  (forall ev msg,
      ev = SubmitSearch \/ (exists o, ev = SearchSettled o) ->
      toasts (env (step waitingApp ev))
      = mkToast TError msg :: toasts (env waitingApp) ->
      page (step waitingApp ev) = MapPage (containerOf waitingApp)).
Proof.
  apply (C4_search_errors waitingApp (containerOf waitingApp)).
  - exists None, [TypeToken (lit "pk.abc"); SubmitToken; Engine load;
                  TypeQuery (lit "Paris"); SubmitSearch].
    reflexivity.
  - vm_compute. reflexivity.
Defined.

(** ** The buttons (C6, C7) *)

Section Buttons.

Lemma step_toggleSpin (a : App) (c : MapContainer) :
  reachable a -> page a = MapPage c -> isMainView (view c) = true ->
  let cl := mkClosure (negb (isSpinning c)) false in
  step a ClickToggleSpin =
  mkApp (call (call (fst (toggleSpin (env a, c))) RemoveMap)
              (CreateMap (mapboxToken c)))
        (index_mapboxToken a)
        (MapPage
           (mkContainer (mapboxToken c) (searchQuery c)
              (negb (isSpinning c)) [] (isMapLoaded c) true
              (spinGlobe cl (Some (addControl (newMap (mapboxToken c))
                                              (mkNav true (lit "top-right")))))
              (Some (mapboxToken c, negb (isSpinning c), []))
              (Some cl))).
Proof.
  intros Hr Hp Hv.
  destruct (main_view_map a c Hr Hp Hv) as (cl & m & _ & _ & _ & _ & Herr & _).
  assert (E : handleMapPage ClickToggleSpin (env a, c) = toggleSpin (env a, c))
    by (unfold handleMapPage; now rewrite Hv).
  pose proof (step_rerun_create a c ClickToggleSpin Hr Hp Hv) as H.
  rewrite E in H. apply H.
  - discriminate.
  - unfold toggleSpin, deps. cbn. intros H0. injection H0 as H0.
    now destruct (isSpinning c).
  - exact Herr.
Qed.

Lemma step_resetView_paused (a : App) (c : MapContainer) :
  reachable a -> page a = MapPage c -> isMainView (view c) = true ->
  isSpinning c = false ->
  let cl := mkClosure true false in
  step a ClickResetView =
  mkApp (call (call (env a) RemoveMap) (CreateMap (mapboxToken c)))
        (index_mapboxToken a)
        (MapPage
           (mkContainer (mapboxToken c) (searchQuery c) true []
              (isMapLoaded c) true
              (spinGlobe cl (Some (addControl (newMap (mapboxToken c))
                                              (mkNav true (lit "top-right")))))
              (Some (mapboxToken c, true, [])) (Some cl))).
Proof.
  intros Hr Hp Hv Hs.
  destruct (main_view_map a c Hr Hp Hv) as (cl & m & _ & _ & _ & _ & Herr & _).
  assert (E : handleMapPage ClickResetView (env a, c) = (env a, resetView c))
    by (unfold handleMapPage; now rewrite Hv).
  pose proof (step_rerun_create a c ClickResetView Hr Hp Hv) as H.
  rewrite E in H. apply H.
  - discriminate.
  - unfold resetView, deps. cbn. rewrite Hs. discriminate.
  - exact Herr.
Qed.

Lemma step_resetView_spinning (a : App) (c : MapContainer) :
  reachable a -> page a = MapPage c -> isMainView (view c) = true ->
  isSpinning c = true ->
  step a ClickResetView =
  mkApp (env a) (index_mapboxToken a) (MapPage (resetView c)).
Proof.
  intros Hr Hp Hv Hs.
  assert (E : handleMapPage ClickResetView (env a, c) = (env a, resetView c))
    by (unfold handleMapPage; now rewrite Hv).
  rewrite (step_quiet a c ClickResetView Hr Hp);
    [now rewrite E|discriminate|rewrite E].
  unfold resetView, deps. cbn. now rewrite Hs.
Qed.

End Buttons.

(** C6. Whatever the state it is called in, [resetView] turns rotation on
    and asks the map it finds for a [flyTo] to center (30, 15), zoom 1.5 and
    pitch 45. On the running page the button is there only with a map: when
    rotation was on already that transition is the map's newest command;
    when it was off, turning it on re-runs the effect, and the map on screen
    afterwards is a new one built at that very camera. *)
Theorem C6_resetView (a : App) (c : MapContainer) :
  reachable a -> page a = MapPage c -> isMainView (view c) = true ->
  let target := FlyTo (mkLngLat 30 15) 1.5 (Some 45) 2000 in
  (forall c0 : MapContainer,
      isSpinning (resetView c0) = true /\
      (forall m0, map c0 = Some m0 ->
                  map (resetView c0) = Some (issue m0 target))) /\
  exists m, map c = Some m /\
    resetView c = set_map (setIsSpinning c true) (Some (issue m target)) /\
    isSpinning (containerOf (step a ClickResetView)) = true /\
    exists m', mapOf (step a ClickResetView) = Some m' /\ removed m' = false /\
      ((isSpinning c = true /\ m' = issue m target)
       \/ (isSpinning c = false /\
           camera m' = mkCamera (mkLngLat 30 15) 1.5 45 /\
           engine (env (step a ClickResetView))
           = CreateMap (mapboxToken c) :: RemoveMap :: engine (env a))).
Proof.
  intros Hr Hp Hv target. split.
  { intros c0. split; [reflexivity|]. intros m0 Hm0. unfold resetView.
    cbv zeta. change (map (setIsSpinning c0 true)) with (map c0).
    now rewrite Hm0. }
  destruct (main_view_map a c Hr Hp Hv) as (cl & m & _ & Hm & Hrem & _).
  exists m. split; [assumption|]. split.
  { unfold resetView. cbv zeta.
    change (map (setIsSpinning c true)) with (map c). now rewrite Hm. }
  destruct (isSpinning c) eqn:Hs.
  - rewrite (step_resetView_spinning a c Hr Hp Hv Hs).
    unfold mapOf, containerOf, resetView. cbn. rewrite Hm. cbn.
    split; [reflexivity|]. exists (issue m target).
    split; [reflexivity|]. split; [assumption|]. left. split; reflexivity.
  - rewrite (step_resetView_paused a c Hr Hp Hv Hs).
    unfold mapOf, containerOf. cbn [page env isSpinning map].
    split; [reflexivity|].
    rewrite spinGlobe_cases. eexists. split; [reflexivity|].
    split; [|right; split; [reflexivity|split; [|reflexivity]]].
    + destruct (_ && _); reflexivity.
    + destruct (_ && _); reflexivity.
Qed.

Lemma C6_resetView_witness :
  let target := FlyTo (mkLngLat 30 15) 1.5 (Some 45) 2000 in
  (forall c0 : MapContainer,
      isSpinning (resetView c0) = true /\
      (forall m0, map c0 = Some m0 ->
                  map (resetView c0) = Some (issue m0 target))) /\
  exists m, map (containerOf loadedApp) = Some m /\
    resetView (containerOf loadedApp)
    = set_map (setIsSpinning (containerOf loadedApp) true) (Some (issue m target)) /\
    isSpinning (containerOf (step loadedApp ClickResetView)) = true /\
    exists m', mapOf (step loadedApp ClickResetView) = Some m' /\ removed m' = false /\
      ((isSpinning (containerOf loadedApp) = true /\ m' = issue m target)
       \/ (isSpinning (containerOf loadedApp) = false /\
           camera m' = mkCamera (mkLngLat 30 15) 1.5 45 /\
           engine (env (step loadedApp ClickResetView))
           = CreateMap (mapboxToken (containerOf loadedApp))
               :: RemoveMap :: engine (env loadedApp))).
Proof.
  apply (C6_resetView loadedApp (containerOf loadedApp)).
  - exists None, [TypeToken (lit "pk.abc"); SubmitToken; Engine load].
    reflexivity.
  - vm_compute. reflexivity.
  - vm_compute. reflexivity.
Defined.

(** C7, as the specification states it, fails: with the pointer down on the
    map ([userInteracting = true]), toggling rotation leaves a closure whose
    [userInteracting] is [false]. *)
Lemma C7_interacting_reset :
  reachable pressedApp /\
  isMainView (view (containerOf pressedApp)) = true /\
  option_map userInteracting (closure (containerOf pressedApp)) = Some true /\
  option_map userInteracting
    (closure (containerOf (step pressedApp ClickToggleSpin))) = Some false /\
  option_map userInteracting
    (closure (containerOf (step pressedApp ClickToggleSpin)))
  <> option_map userInteracting (closure (containerOf pressedApp)).
Proof.
  split.
  { exists None, [TypeToken (lit "pk.abc"); SubmitToken; Engine load;
                  Engine mousedown].
    reflexivity. }
  vm_compute. repeat split. discriminate.
Qed.

(** C7, amended. [toggleSpin] flips [isSpinning] and, by itself, touches
    nothing else of the container: [userInteracting] in the closure is as it
    was when the handler returns. The flip is a dependency of the effect, so
    React then removes the map and runs the effect again, and the new closure
    starts with [userInteracting = false]: after the toggle the flag is what
    it was exactly when it was [false]. *)
Theorem C7_toggleRotation (a : App) (c : MapContainer) (cl : Closure) :
  reachable a -> page a = MapPage c -> isMainView (view c) = true ->
  closure c = Some cl ->
  snd (toggleSpin (env a, c)) = setIsSpinning c (negb (isSpinning c)) /\
  closure (snd (toggleSpin (env a, c))) = Some cl /\
  isSpinning (containerOf (step a ClickToggleSpin)) = negb (isSpinning c) /\
  closure (containerOf (step a ClickToggleSpin))
  = Some (mkClosure (negb (isSpinning c)) false) /\
  (option_map userInteracting (closure (containerOf (step a ClickToggleSpin)))
   = Some (userInteracting cl)
   <-> userInteracting cl = false).
Proof.
  intros Hr Hp Hv Hcl.
  split; [reflexivity|]. split; [exact Hcl|].
  rewrite (step_toggleSpin a c Hr Hp Hv). unfold containerOf.
  cbn [page isSpinning closure option_map userInteracting].
  split; [reflexivity|]. split; [reflexivity|].
  split; intros H; [now injection H|now rewrite H].
Qed.

Lemma C7_toggleRotation_witness :
  snd (toggleSpin (env pressedApp, containerOf pressedApp))
  = setIsSpinning (containerOf pressedApp)
                  (negb (isSpinning (containerOf pressedApp))) /\
  closure (snd (toggleSpin (env pressedApp, containerOf pressedApp)))
  = Some (mkClosure true true) /\
  isSpinning (containerOf (step pressedApp ClickToggleSpin))
  = negb (isSpinning (containerOf pressedApp)) /\
  closure (containerOf (step pressedApp ClickToggleSpin))
  = Some (mkClosure (negb (isSpinning (containerOf pressedApp))) false) /\
  (option_map userInteracting
     (closure (containerOf (step pressedApp ClickToggleSpin)))
   = Some (userInteracting (mkClosure true true))
   <-> userInteracting (mkClosure true true) = false).
Proof.
  apply (C7_toggleRotation pressedApp (containerOf pressedApp)
                           (mkClosure true true)).
  - exists None, [TypeToken (lit "pk.abc"); SubmitToken; Engine load;
                  Engine mousedown].
    reflexivity.
  - vm_compute. reflexivity.
  - vm_compute. reflexivity.
  - vm_compute. reflexivity.
Defined.

(** ** Errors of the engine (C8) *)

Lemma classifyError_nonempty (message : option jsstring) :
  classifyError message <> [].
Proof.
  unfold classifyError. destruct message as [s|]; [|discriminate].
  destruct (_ || _); discriminate.
Qed.

(** One signal followed by the render is the burst of that signal. *)
Lemma step_engine_burst (a : App) (mev : MapEvent) :
  step a (Engine mev) = step a (Burst [Signal mev]).
Proof.
  unfold step. destruct (page a); reflexivity.
Qed.

(** The listeners stay registered until React renders. *)
Lemma burst_closure (l : list Async) (e : Env) (c : MapContainer)
      (cl : Closure) :
  closure c = Some cl ->
  exists cl', closure (snd (fold_left (fun ec x => handleAsync x ec) l (e, c)))
              = Some cl'.
Proof.
  intros Hcl.
  destruct (burst_framed l (e, c)) as (_ & _ & _ & _ & _ & _ & _ & F & _).
  cbn [fst snd] in F. rewrite Hcl in F.
  destruct (closure (snd (fold_left _ l (e, c)))) as [cl'|];
    [exists cl'; reflexivity|discriminate].
Qed.

(** Of the messages set since the last render, the last one stands. *)
Lemma burst_error_message (before after : list Async) (e : Env)
      (c : MapContainer) (cl : Closure) (message : option jsstring) :
  closure c = Some cl -> forallb keepsError after = true ->
  mapError (snd (fold_left (fun ec x => handleAsync x ec)
                           (before ++ Signal (error message) :: after) (e, c)))
  = classifyError message.
Proof.
  intros Hcl Hk. rewrite fold_left_app. cbn [fold_left].
  rewrite (burst_keepsError after _ Hk).
  destruct (burst_closure before e c cl Hcl) as (cl' & E).
  destruct (fold_left _ before (e, c)) as [e1 c1]. cbn [snd] in E.
  unfold handleAsync, onMapEvent. now rewrite E.
Qed.

(** A [load] after them takes the message back. *)
Lemma burst_load_message (before after : list Async) (e : Env)
      (c : MapContainer) (cl : Closure) :
  closure c = Some cl -> forallb keepsError after = true ->
  mapError (snd (fold_left (fun ec x => handleAsync x ec)
                           (before ++ Signal load :: after) (e, c)))
  = [].
Proof.
  intros Hcl Hk. rewrite fold_left_app. cbn [fold_left].
  rewrite (burst_keepsError after _ Hk).
  destruct (burst_closure before e c cl Hcl) as (cl' & E).
  destruct (fold_left _ before (e, c)) as [e1 c1]. cbn [snd] in E.
  unfold handleAsync, onMapEvent. now rewrite E.
Qed.

(** A burst that leaves the message empty leaves the effect alone. *)
Lemma burst_deps (l : list Async) (e : Env) (c : MapContainer) :
  mapError c = [] ->
  mapError (snd (fold_left (fun ec x => handleAsync x ec) l (e, c))) = [] ->
  deps (snd (handleMapPage (Burst l) (e, c))) = deps c.
Proof.
  intros Hc Hl.
  change (handleMapPage (Burst l) (e, c))
    with (fold_left (fun ec x => handleAsync x ec) l (e, c)).
  destruct (burst_framed l (e, c)) as (F1 & F2 & _). cbn [fst snd] in *.
  unfold deps. now rewrite F1, F2, Hl, Hc.
Qed.

(** The render that finds an error pending: the cleanup removes the map, the
    effect builds none, the error screen is shown. *)
Lemma step_burst_error (a : App) (c : MapContainer) (cl : Closure)
      (message : option jsstring) (before after : list Async) :
  reachable a -> page a = MapPage c -> closure c = Some cl ->
  forallb keepsError after = true ->
  let ev := Burst (before ++ Signal (error message) :: after) in
  let h := handleMapPage ev (env a, c) in
  step a ev =
  mkApp (call (fst h) RemoveMap) (index_mapboxToken a)
        (MapPage
           (mkContainer (mapboxToken c) (searchQuery (snd h))
              (isSpinning (snd h)) (classifyError message)
              (isMapLoaded (snd h)) false (option_map remove (map (snd h)))
              (Some (deps (snd h))) None)).
Proof.
  intros Hr Hp Hcl Hk ev h.
  pose proof (reachable_inv _ Hr) as HI. unfold Inv in HI.
  rewrite Hp in HI. destruct HI as [_ HS].
  destruct (stable_closure _ _ _ HS Hcl) as (m & _ & _ & _ & Herr & _).
  assert (Hv : isMainView (view c) = true).
  { destruct HS as ((Htok & _) & _). unfold view. now rewrite Htok, Herr. }
  assert (E : mapError (snd h) = classifyError message)
    by exact (burst_error_message before after (env a) c cl message Hcl Hk).
  pose proof (step_rerun_error a c ev Hr Hp Hv) as H.
  fold h in H. cbv zeta in H. rewrite E in H. apply H.
  - discriminate.
  - unfold deps. rewrite E, Herr. intros H0. injection H0 as _ _ H0.
    exact (classifyError_nonempty _ H0).
  - apply classifyError_nonempty.
Qed.

(** C8. The error listener chooses the message by substring: the
    unauthorized message when the error's text includes "Unauthorized" or
    "Invalid Token", the network-failure message for every other text, and
    for an error without a text. The listener only sets the message; it is
    surfaced when React next renders, if neither a later error nor [load]
    has replaced it by then: whatever the engine signalled [before] it and
    whatever of the other signals came [after] it, the render shows the error
    screen with the message chosen for this error. A render right after the
    signal is the case of a burst of one. *)
Theorem C8_error_classification (a : App) (c : MapContainer) (cl : Closure)
        (message : option jsstring) (before after : list Async) :
  reachable a -> page a = MapPage c -> closure c = Some cl ->
  forallb keepsError after = true ->
  let c' := containerOf
              (step a (Burst (before ++ Signal (error message) :: after))) in
  (forall e c0 cl0, closure c0 = Some cl0 ->
     onMapEvent (error message) (e, c0)
     = (e, setMapError c0 (classifyError message))) /\
  step a (Engine (error message)) = step a (Burst [Signal (error message)]) /\
  mapError c' = classifyError message /\
  view c' = ErrorScreen /\
  (forall s, message = Some s ->
     JsString.includes s (lit "Unauthorized") = true
     \/ JsString.includes s (lit "Invalid Token") = true ->
     mapError c' = msgUnauthorized) /\
  (forall s, message = Some s ->
     JsString.includes s (lit "Unauthorized") = false ->
     JsString.includes s (lit "Invalid Token") = false ->
     mapError c' = msgNetwork) /\
  (message = None -> mapError c' = msgNetwork).
Proof.
  intros Hr Hp Hcl Hk. cbv zeta.
  split.
  { intros e c0 cl0 E. unfold onMapEvent. now rewrite E. }
  split; [apply step_engine_burst|].
  rewrite (step_burst_error a c cl message before after Hr Hp Hcl Hk).
  unfold containerOf. cbn [page mapError]. split; [reflexivity|]. split.
  { unfold view. cbn [mapboxToken mapError].
    rewrite (map_page_token a c Hr Hp).
    pose proof (classifyError_nonempty message) as Hne.
    destruct (classifyError message); [contradiction|reflexivity]. }
  unfold classifyError. split; [|split].
  - intros s -> [H | H]; rewrite H; [reflexivity|now rewrite orb_true_r].
  - intros s -> H1 H2. now rewrite H1, H2.
  - intros ->. reflexivity.
Qed.

Lemma C8_error_classification_witness :
  let burst := Burst [Signal (error (Some (lit "Failed to fetch")));
                      Signal (error (Some (lit "Error: Unauthorized (401)")));
                      Signal moveend] in
  mapError (containerOf (step loadedApp burst)) = msgUnauthorized /\
  view (containerOf (step loadedApp burst)) = ErrorScreen /\
  mapError (containerOf
              (step loadedApp
                    (Burst [Signal (error (Some (lit "Failed to fetch")))])))
  = msgNetwork.
Proof.
  cbv zeta.
  assert (Hr : reachable loadedApp).
  { exists None, [TypeToken (lit "pk.abc"); SubmitToken; Engine load].
    reflexivity. }
  assert (Hp : page loadedApp = MapPage (containerOf loadedApp))
    by (vm_compute; reflexivity).
  assert (Hcl : closure (containerOf loadedApp) = Some (mkClosure true false))
    by (vm_compute; reflexivity).
  pose proof (C8_error_classification loadedApp (containerOf loadedApp)
                (mkClosure true false)
                (Some (lit "Error: Unauthorized (401)"))
                [Signal (error (Some (lit "Failed to fetch")))]
                [Signal moveend] Hr Hp Hcl eq_refl) as H1.
  pose proof (C8_error_classification loadedApp (containerOf loadedApp)
                (mkClosure true false)
                (Some (lit "Failed to fetch")) [] [] Hr Hp Hcl eq_refl) as H2.
  cbv zeta in H1, H2.
  destruct H1 as (_ & _ & _ & Hv & Hu & _).
  destruct H2 as (_ & _ & _ & _ & _ & Hn & _).
  split; [|split].
  - apply (Hu _ eq_refl). left. vm_compute. reflexivity.
  - exact Hv.
  - apply (Hn _ eq_refl); vm_compute; reflexivity.
Defined.

(** ** The life of the map instance (C9) *)

Section Lifecycle.

Local Arguments spinGlobe : simpl never.
Local Arguments JsString.trim : simpl never.
Local Arguments JsString.isEmpty : simpl never.
Local Arguments lit : simpl never.
Local Arguments geocodingUrl : simpl never.
Local Arguments URI.encodeURIComponent : simpl never.
Local Arguments popupFor : simpl never.
Local Arguments classifyError : simpl never.
Local Arguments msgInitialized : simpl never.

(** Off the main view no listener is registered and no button is shown:
    no handler changes a dependency. *)
Lemma quiet_off_main (e : Env) (c : MapContainer) (ev : Event) :
  Stable e c -> isMainView (view c) = false ->
  deps (snd (handleMapPage ev (e, c))) = deps c.
Proof.
  intros HS Hv. pose proof (stable_error _ _ HS Hv) as Hcl.
  unfold handleMapPage, onMapEvent. rewrite Hv, Hcl.
  destruct ev as [| | |mev| | | |o| | | | | |l]; try reflexivity.
  - unfold onCamera. now rewrite Hcl.
  - destruct (pending e); [reflexivity|].
    unfold handleSearch_settled.
    destruct o as [| |[[[|f fs]|]]]; try reflexivity.
    cbn [features]. destruct (map c); reflexivity.
  - now apply burst_quiet.
Qed.

End Lifecycle.

(** C9, as the specification states it, fails: with the token unchanged and
    the map page still on screen, toggling rotation removes the map and
    creates another one. *)
Lemma C9_toggle_recreates :
  reachable loadedApp /\
  engine (env loadedApp) = [CreateMap (lit "pk.abc")] /\
  index_mapboxToken (step loadedApp ClickToggleSpin) = index_mapboxToken loadedApp /\
  mapboxToken (containerOf (step loadedApp ClickToggleSpin))
  = mapboxToken (containerOf loadedApp) /\
  view (containerOf (step loadedApp ClickToggleSpin)) = MainView /\
  engine (env (step loadedApp ClickToggleSpin))
  = [CreateMap (lit "pk.abc"); RemoveMap; CreateMap (lit "pk.abc")].
Proof.
  split.
  { exists None, [TypeToken (lit "pk.abc"); SubmitToken; Engine load].
    reflexivity. }
  vm_compute. repeat split.
Qed.

(** C9, amended. A map is created once by each run of the effect that finds
    a token starting with "pk.": submitting such a token creates exactly one.
    On the map page the instance then lives until React renders the
    component with one of the three dependencies of the effect (token,
    rotation mode, error message) changed: an event after which the render
    finds them as they were neither removes nor creates a map, and a render
    in the main view that finds one of them changed removes the map, and
    creates a new one exactly when there is no error to show. An error of
    the engine only queues its message. If [load] follows it before React
    renders, the message is taken back and the instance stays, with no call
    to the engine; if the message is still pending at the render, the
    instance is removed and none is created. *)
Theorem C9_map_lifecycle (a : App) (c : MapContainer) (ev : Event) :
  reachable a -> page a = MapPage c -> ev <> ClickEnterNewToken ->
  let h := handleMapPage ev (env a, c) in
  (deps (snd h) = deps c -> engine (env (step a ev)) = engine (env a)) /\
  (isMainView (view c) = false -> engine (env (step a ev)) = engine (env a)) /\
  (isMainView (view c) = true -> deps (snd h) <> deps c ->
   engine (env (step a ev)) =
   (if JsString.isEmpty (mapError (snd h))
    then [CreateMap (mapboxToken c)] else [])
   ++ RemoveMap :: engine (env a)) /\
  (forall a0 f,
      page a0 = TokenForm f ->
      JsString.isEmpty (JsString.trim (token f)) = false ->
      JsString.startsWith (token f) (lit "pk.") = true ->
      engine (env (step a0 SubmitToken)) = CreateMap (token f) :: engine (env a0)) /\
  (isMainView (view c) = true ->
   forall before after, forallb keepsError after = true ->
     let a' := step a (Burst (before ++ Signal load :: after)) in
     engine (env a') = engine (env a) /\
     view (containerOf a') = MainView /\
     exists m m', map c = Some m /\ map (containerOf a') = Some m' /\
                  removed m' = false) /\
  (isMainView (view c) = true ->
   forall before message after, forallb keepsError after = true ->
     let a' := step a (Burst (before ++ Signal (error message) :: after)) in
     engine (env a') = RemoveMap :: engine (env a) /\
     view (containerOf a') = ErrorScreen /\
     exists m m', map c = Some m /\ map (containerOf a') = Some m' /\
                  removed m' = true).
Proof.
  intros Hr Hp Hev h. subst h.
  pose proof (handle_bookkeeping ev (env a) c) as (_ & _ & _ & Heng & _).
  pose proof (reachable_inv _ Hr) as HI. unfold Inv in HI.
  rewrite Hp in HI. destruct HI as [_ HS].
  assert (Hquiet : deps (snd (handleMapPage ev (env a, c))) = deps c ->
                   engine (env (step a ev)) = engine (env a)).
  { intros Hd. rewrite (step_quiet a c ev Hr Hp Hev Hd). exact Heng. }
  split; [exact Hquiet|]. split; [|split; [|split; [|split]]].
  - intros Hv. apply Hquiet. apply quiet_off_main; [exact HS|exact Hv].
  - intros Hv Hd.
    destruct (mapError (snd (handleMapPage ev (env a, c)))) as [|e0 err] eqn:Herr.
    + rewrite (step_rerun_create a c ev Hr Hp Hv Hev Hd Herr).
      cbn [env engine call JsString.isEmpty app]. now rewrite Heng.
    + rewrite (step_rerun_error a c ev Hr Hp Hv Hev Hd)
        by (rewrite Herr; discriminate).
      cbn [env engine call JsString.isEmpty app]. now rewrite Heng.
  - intros a0 f Hp0 Ht Hpk. rewrite (submit_good a0 f Hp0 Ht Hpk). reflexivity.
  - intros Hv before after Hk. cbv zeta.
    destruct (stable_main _ _ HS Hv) as (cl & Hcl).
    destruct (stable_closure _ _ _ HS Hcl) as (m & Hm & Hrm & _ & Herr & _).
    set (l := before ++ Signal load :: after).
    assert (Hd : deps (snd (handleMapPage (Burst l) (env a, c))) = deps c).
    { apply burst_deps; [exact Herr|].
      exact (burst_load_message before after (env a) c cl Hcl Hk). }
    rewrite (step_quiet a c (Burst l) Hr Hp) by (discriminate || exact Hd).
    unfold containerOf. cbn [env page].
    pose proof (handle_bookkeeping (Burst l) (env a) c) as (_ & _ & _ & He & _).
    split; [exact He|]. split.
    + rewrite (view_deps _ _ Hd). unfold isMainView in Hv.
      destruct (view c); try discriminate; reflexivity.
    + change (handleMapPage (Burst l) (env a, c))
        with (fold_left (fun ec x => handleAsync x ec) l (env a, c)).
      destruct (burst_framed l (env a, c))
        as (_ & _ & _ & _ & _ & _ & _ & _ & _ & F).
      cbn [fst snd] in F. rewrite Hm in F.
      destruct F as (m' & E' & R' & _).
      exists m, m'. rewrite R'. auto.
  - intros Hv before message after Hk. cbv zeta.
    destruct (stable_main _ _ HS Hv) as (cl & Hcl).
    destruct (stable_closure _ _ _ HS Hcl) as (m & Hm & Hrm & _ & Herr & _).
    rewrite (step_burst_error a c cl message before after Hr Hp Hcl Hk).
    set (l := before ++ Signal (error message) :: after).
    unfold containerOf. cbn [env page engine call map].
    pose proof (handle_bookkeeping (Burst l) (env a) c) as (_ & _ & _ & He & _).
    split; [now rewrite He|]. split.
    + unfold view. cbn [mapboxToken mapError].
      rewrite (map_page_token a c Hr Hp).
      pose proof (classifyError_nonempty message) as Hne.
      destruct (classifyError message); [contradiction|reflexivity].
    + change (handleMapPage (Burst l) (env a, c))
        with (fold_left (fun ec x => handleAsync x ec) l (env a, c)).
      destruct (burst_framed l (env a, c))
        as (_ & _ & _ & _ & _ & _ & _ & _ & _ & F).
      cbn [fst snd] in F. rewrite Hm in F.
      destruct F as (m' & E' & _).
      exists m, (remove m'). rewrite E'. auto.
Qed.

Lemma C9_map_lifecycle_witness :
  engine (env loadedApp) = [CreateMap (lit "pk.abc")] /\
  engine (env (step loadedApp ClickToggleSpin))
  = [CreateMap (lit "pk.abc"); RemoveMap; CreateMap (lit "pk.abc")] /\
  engine (env (step loadedApp
                    (Burst [Signal (error None); Signal mouseup;
                            Signal load; Signal moveend])))
  = [CreateMap (lit "pk.abc")] /\
  engine (env (step loadedApp
                    (Burst [Signal load; Signal (error None);
                            Signal moveend])))
  = [RemoveMap; CreateMap (lit "pk.abc")].
Proof.
  assert (Hr : reachable loadedApp).
  { exists None, [TypeToken (lit "pk.abc"); SubmitToken; Engine load].
    reflexivity. }
  assert (Hp : page loadedApp = MapPage (containerOf loadedApp))
    by (vm_compute; reflexivity).
  assert (Hev : ClickToggleSpin <> ClickEnterNewToken) by discriminate.
  pose proof (C9_map_lifecycle loadedApp (containerOf loadedApp)
                ClickToggleSpin Hr Hp Hev) as H.
  cbv zeta in H. destruct H as (_ & _ & H3 & _ & H5 & H6).
  split; [reflexivity|]. split; [|split].
  - rewrite H3; [reflexivity|reflexivity|vm_compute; discriminate].
  - apply (H5 eq_refl [Signal (error None); Signal mouseup]
              [Signal moveend] eq_refl).
  - apply (H6 eq_refl [Signal load] None [Signal moveend] eq_refl).
Defined.

(** * Further properties of the code *)

(** ** Which candidates and queries count as empty *)

Section Blank.

Lemma isEmpty_trimStart (s : jsstring) :
  JsString.isEmpty (JsString.trimStart s) = isBlank s.
Proof.
  induction s as [|c s IH]; [reflexivity|]. cbn [JsString.trimStart].
  unfold isBlank in *. cbn [forallb].
  destruct (JsString.isWhiteSpace c); [exact IH|reflexivity].
Qed.

Lemma isBlank_trimStart (s : jsstring) :
  isBlank (JsString.trimStart s) = isBlank s.
Proof.
  induction s as [|c s IH]; [reflexivity|]. cbn [JsString.trimStart].
  destruct (JsString.isWhiteSpace c) eqn:E; [|reflexivity].
  rewrite IH. unfold isBlank. cbn [forallb]. now rewrite E.
Qed.

Lemma isBlank_rev (s : jsstring) : isBlank (rev s) = isBlank s.
Proof.
  unfold isBlank. induction s as [|c s IH]; [reflexivity|].
  cbn [rev forallb]. rewrite forallb_app, IH. cbn [forallb].
  rewrite andb_true_r. apply andb_comm.
Qed.

Lemma isEmpty_rev (s : jsstring) :
  JsString.isEmpty (rev s) = JsString.isEmpty s.
Proof.
  destruct s as [|c s]; [reflexivity|]. cbn [rev JsString.isEmpty].
  destruct (rev s); reflexivity.
Qed.

(** [!s.trim()] holds exactly of the strings of white space. *)
Lemma isEmpty_trim (s : jsstring) :
  JsString.isEmpty (JsString.trim s) = isBlank s.
Proof.
  unfold JsString.trim, JsString.trimEnd.
  now rewrite isEmpty_rev, isEmpty_trimStart, isBlank_rev, isBlank_trimStart.
Qed.

End Blank.

(** X1. The form rejects exactly the candidates that consist of white space
    only (the empty one among them): for those the submission leaves an
    error message and nothing else; every candidate with one other character
    is stored and opens the map page. *)
Theorem submit_rejects_blank (a : App) (f : TokenInput) :
  reachable a -> page a = TokenForm f ->
  (isBlank (token f) = true ->
     step a SubmitToken =
     mkApp (toast (env a) TError (lit "Please enter a valid Mapbox token"))
           (index_mapboxToken a) (page a)) /\
  (isBlank (token f) = false ->
     localStorage (env (step a SubmitToken)) = Some (token f) /\
     exists c, page (step a SubmitToken) = MapPage c /\
               mapboxToken c = token f).
Proof.
  intros Hr Hp. split; intros Hb.
  - apply (submit_empty a f Hr Hp). now rewrite isEmpty_trim.
  - assert (Ht : JsString.isEmpty (JsString.trim (token f)) = false)
      by now rewrite isEmpty_trim.
    destruct (JsString.startsWith (token f) (lit "pk.")) eqn:Hpk.
    + rewrite (submit_good a f Hp Ht Hpk). split; [reflexivity|].
      eexists. split; reflexivity.
    + rewrite (submit_bad a f Hp Ht Hpk). split; [reflexivity|].
      eexists. split; reflexivity.
Qed.

Lemma submit_rejects_blank_witness :
  (isBlank (token (mkTokenInput [32; 9; 160]%N false)) = true ->
     step (typed [32; 9; 160]%N) SubmitToken =
     mkApp (toast (env (typed [32; 9; 160]%N)) TError
                  (lit "Please enter a valid Mapbox token"))
           (index_mapboxToken (typed [32; 9; 160]%N))
           (page (typed [32; 9; 160]%N))) /\
  (isBlank (token (mkTokenInput [32; 9; 160]%N false)) = false ->
     localStorage (env (step (typed [32; 9; 160]%N) SubmitToken))
     = Some (token (mkTokenInput [32; 9; 160]%N false)) /\
     exists c, page (step (typed [32; 9; 160]%N) SubmitToken) = MapPage c /\
               mapboxToken c = token (mkTokenInput [32; 9; 160]%N false)).
Proof.
  apply (submit_rejects_blank (typed [32; 9; 160]%N)
                              (mkTokenInput [32; 9; 160]%N false)).
  - exists None, [TypeToken [32; 9; 160]%N]. reflexivity.
  - reflexivity.
Defined.

(** ** The request of a search *)

Section Encoding.

Open Scope N_scope.

Lemma hexDigit_safe (n : N) : n < 16 -> isUrlSafe (URI.hexDigit n) = true.
Proof.
  intros H. rewrite <- (N2Nat.id n).
  assert (Hk : (N.to_nat n < 16)%nat) by lia.
  revert Hk. generalize (N.to_nat n) as k. intros k Hk.
  do 16 (destruct k as [|k]; [reflexivity|]). lia.
Qed.

Lemma percent_safe (b : N) : b < 256 -> forallb isUrlSafe (URI.percent b) = true.
Proof.
  intros H. unfold URI.percent. cbn [forallb].
  rewrite !hexDigit_safe; [reflexivity| |].
  - apply N.mod_lt. discriminate.
  - apply N.Div0.div_lt_upper_bound. exact H.
Qed.

Lemma utf8_bytes (cp : N) :
  cp < 1114112 -> Forall (fun b => b < 256) (URI.utf8 cp).
Proof.
  intros H. unfold URI.utf8.
  assert (M : forall x, 128 + x mod 64 < 256)
    by (intros x; pose proof (N.mod_lt x 64); lia).
  destruct (cp <? 128) eqn:E1; [apply N.ltb_lt in E1; repeat constructor; lia|].
  destruct (cp <? 2048) eqn:E2.
  { apply N.ltb_lt in E2. repeat constructor; [|apply M].
    assert (cp / 64 < 32) by (apply N.Div0.div_lt_upper_bound; lia). lia. }
  destruct (cp <? 65536) eqn:E3.
  { apply N.ltb_lt in E3. repeat constructor; try apply M.
    assert (cp / 4096 < 16) by (apply N.Div0.div_lt_upper_bound; lia). lia. }
  repeat constructor; try apply M.
  assert (cp / 262144 < 5) by (apply N.Div0.div_lt_upper_bound; lia). lia.
Qed.

Lemma escape_safe (cp : N) :
  cp < 1114112 -> forallb isUrlSafe (URI.escape cp) = true.
Proof.
  intros H. unfold URI.escape. pose proof (utf8_bytes cp H) as B.
  induction B as [|b bs Hb _ IH]; [reflexivity|].
  cbn [List.map List.concat]. rewrite forallb_app, IH, percent_safe; auto.
Qed.

(** Whatever [encodeURIComponent] returns for a string of code units is made
    of unreserved characters and percent escapes. *)
Lemma encode_safe (s q : jsstring) :
  wellFormed s = true -> URI.encodeURIComponent s = Some q ->
  forallb isUrlSafe q = true.
Proof.
  remember (List.length s) as n eqn:Hn.
  assert (Hle : (List.length s <= n)%nat) by lia. clear Hn.
  revert s q Hle. induction n as [|n IH]; intros s q Hle Hw Henc.
  - destruct s; [|cbn in Hle; lia]. injection Henc as <-. reflexivity.
  - destruct s as [|c r]; [injection Henc as <-; reflexivity|].
    cbn [List.length] in Hle. unfold wellFormed in Hw. cbn [forallb] in Hw.
    apply andb_true_iff in Hw as [Hc Hr]. apply N.ltb_lt in Hc.
    cbn [URI.encodeURIComponent] in Henc.
    destruct (URI.isUnreserved c) eqn:Eu.
    { destruct (URI.encodeURIComponent r) as [q'|] eqn:Er; [|discriminate].
      injection Henc as <-. cbn [forallb]. unfold isUrlSafe at 1. rewrite Eu.
      apply (IH r q'); [lia|exact Hr|exact Er]. }
    destruct ((c <? 55296) || (57343 <? c)) eqn:Es.
    { destruct (URI.encodeURIComponent r) as [q'|] eqn:Er; [|discriminate].
      injection Henc as <-. rewrite forallb_app, escape_safe by lia.
      apply (IH r q'); [lia|exact Hr|exact Er]. }
    apply orb_false_iff in Es as [Es1 Es2].
    apply N.ltb_ge in Es1. apply N.ltb_ge in Es2.
    destruct (c <? 56320) eqn:El; [|discriminate]. apply N.ltb_lt in El.
    destruct r as [|d r']; [discriminate|].
    destruct ((56320 <=? d) && (d <=? 57343)) eqn:Ed; [|discriminate].
    apply andb_true_iff in Ed as [Ed1 Ed2].
    apply N.leb_le in Ed1. apply N.leb_le in Ed2.
    destruct (URI.encodeURIComponent r') as [q'|] eqn:Er; [|discriminate].
    injection Henc as <-. cbn [forallb] in Hr.
    apply andb_true_iff in Hr as [_ Hr']. cbn [List.length] in Hle.
    assert (Hcp : 65536 + (c - 55296) * 1024 + (d - 56320) < 1114112).
    { lia. }
    rewrite forallb_app, escape_safe by exact Hcp.
    apply (IH r' q'); [lia|exact Hr'|exact Er].
Qed.

End Encoding.

Lemma step_submitSearch_blank (a : App) (c : MapContainer) :
  reachable a -> page a = MapPage c ->
  isMainView (view c) = false \/ isBlank (searchQuery c) = true ->
  step a SubmitSearch = a.
Proof.
  intros Hr Hp H.
  assert (E : handleMapPage SubmitSearch (env a, c) = (env a, c)).
  { unfold handleMapPage, handleSearch. destruct H as [-> | H]; [reflexivity|].
    rewrite isEmpty_trim, H. destruct (isMainView (view c)); reflexivity. }
  rewrite (step_quiet a c SubmitSearch Hr Hp);
    [rewrite E|discriminate|rewrite E; reflexivity].
  destruct a; cbn in *. now subst.
Qed.

Lemma step_submitSearch_uriError (a : App) (c : MapContainer) :
  reachable a -> page a = MapPage c -> isMainView (view c) = true ->
  isBlank (searchQuery c) = false ->
  URI.encodeURIComponent (searchQuery c) = None ->
  step a SubmitSearch =
  mkApp (toast (env a) TError (lit "Search failed")) (index_mapboxToken a)
        (MapPage c).
Proof.
  intros Hr Hp Hv Hq Henc.
  assert (E : handleMapPage SubmitSearch (env a, c) =
              (toast (env a) TError (lit "Search failed"), c)).
  { unfold handleMapPage, handleSearch.
    now rewrite Hv, isEmpty_trim, Hq, (map_page_token a c Hr Hp), Henc. }
  rewrite (step_quiet a c SubmitSearch Hr Hp);
    [rewrite E; reflexivity|discriminate|rewrite E; reflexivity].
Qed.

(** X2. Submitting the search form: a query of white space only does
    nothing at all; any other query is sent as typed (not trimmed), escaped,
    in one request for at most one result with the page's token, and nothing
    else changes; and when the query cannot be escaped (an unpaired
    surrogate) nothing is sent and "Search failed" is shown. *)
Theorem search_request (a : App) (c : MapContainer) :
  reachable a -> page a = MapPage c -> isMainView (view c) = true ->
  (isBlank (searchQuery c) = true -> step a SubmitSearch = a) /\
  (isBlank (searchQuery c) = false ->
   forall q, URI.encodeURIComponent (searchQuery c) = Some q ->
     step a SubmitSearch =
     mkApp (fetch (env a)
                  (lit "https://api.mapbox.com/geocoding/v5/mapbox.places/"
                   ++ q ++ lit ".json?access_token=" ++ mapboxToken c
                   ++ lit "&limit=1"))
           (index_mapboxToken a) (MapPage c)) /\
  (isBlank (searchQuery c) = false ->
   URI.encodeURIComponent (searchQuery c) = None ->
     step a SubmitSearch =
     mkApp (toast (env a) TError (lit "Search failed")) (index_mapboxToken a)
           (MapPage c)).
Proof.
  intros Hr Hp Hv. split; [|split].
  - intros Hb. apply (step_submitSearch_blank a c Hr Hp). now right.
  - intros Hb q Henc.
    apply (step_submitSearch a c q Hr Hp Hv); [|exact Henc].
    now rewrite isEmpty_trim.
  - intros Hb Henc. now apply step_submitSearch_uriError.
Qed.

Lemma search_request_witness :
  (isBlank (searchQuery (containerOf queryApp)) = true ->
   step queryApp SubmitSearch = queryApp) /\
  (isBlank (searchQuery (containerOf queryApp)) = false ->
   forall q, URI.encodeURIComponent (searchQuery (containerOf queryApp)) = Some q ->
     step queryApp SubmitSearch =
     mkApp (fetch (env queryApp)
                  (lit "https://api.mapbox.com/geocoding/v5/mapbox.places/"
                   ++ q ++ lit ".json?access_token="
                   ++ mapboxToken (containerOf queryApp) ++ lit "&limit=1"))
           (index_mapboxToken queryApp) (MapPage (containerOf queryApp))) /\
  (isBlank (searchQuery (containerOf queryApp)) = false ->
   URI.encodeURIComponent (searchQuery (containerOf queryApp)) = None ->
     step queryApp SubmitSearch =
     mkApp (toast (env queryApp) TError (lit "Search failed"))
           (index_mapboxToken queryApp) (MapPage (containerOf queryApp))).
Proof.
  apply (search_request queryApp (containerOf queryApp)).
  - exists None, [TypeToken (lit "pk.abc"); SubmitToken; Engine load;
                  TypeQuery (lit "Paris, France")].
    reflexivity.
  - vm_compute. reflexivity.
  - vm_compute. reflexivity.
Defined.

(** X3. Every request the search form sends has the place segment of its
    URL made of unreserved characters and percent escapes only: whatever is
    typed, the query cannot add a path segment or a parameter to the URL. *)
Theorem search_url_safe (a : App) (c : MapContainer) (url : jsstring) :
  reachable a -> page a = MapPage c ->
  wellFormed (searchQuery c) = true ->
  requests (env (step a SubmitSearch)) = url :: requests (env a) ->
  exists q,
    url = lit "https://api.mapbox.com/geocoding/v5/mapbox.places/" ++ q
          ++ lit ".json?access_token=" ++ mapboxToken c ++ lit "&limit=1" /\
    forallb isUrlSafe q = true.
Proof.
  intros Hr Hp Hw Hreq.
  assert (Hsame : step a SubmitSearch = a -> False).
  { intros E. rewrite E in Hreq. exact (cons_neq _ _ Hreq). }
  destruct (isMainView (view c)) eqn:Hv;
    [|exfalso; apply Hsame, (step_submitSearch_blank a c Hr Hp); now left].
  destruct (isBlank (searchQuery c)) eqn:Hb;
    [exfalso; apply Hsame, (step_submitSearch_blank a c Hr Hp); now right|].
  destruct (URI.encodeURIComponent (searchQuery c)) as [q|] eqn:Henc.
  - exists q. split; [|exact (encode_safe _ _ Hw Henc)].
    rewrite (step_submitSearch a c q Hr Hp Hv) in Hreq;
      [|now rewrite isEmpty_trim|exact Henc].
    cbn in Hreq. now injection Hreq.
  - rewrite (step_submitSearch_uriError a c Hr Hp Hv Hb Henc) in Hreq.
    cbn in Hreq. destruct (cons_neq _ _ Hreq).
Qed.

Lemma search_url_safe_witness :
  exists q,
    geocodingUrl (lit "Paris%2C%20France") (lit "pk.abc")
    = lit "https://api.mapbox.com/geocoding/v5/mapbox.places/" ++ q
      ++ lit ".json?access_token=" ++ mapboxToken (containerOf queryApp)
      ++ lit "&limit=1" /\
    forallb isUrlSafe q = true.
Proof.
  apply (search_url_safe queryApp (containerOf queryApp)
                         (geocodingUrl (lit "Paris%2C%20France") (lit "pk.abc"))).
  - exists None, [TypeToken (lit "pk.abc"); SubmitToken; Engine load;
                  TypeQuery (lit "Paris, France")].
    reflexivity.
  - vm_compute. reflexivity.
  - vm_compute. reflexivity.
  - vm_compute. reflexivity.
Defined.

(** ** Page load, persistence and recovery *)

Section PageLoad.

Lemma commit_snd_env (e1 e2 : Env) (c : MapContainer) :
  snd (commit (e1, c)) = snd (commit (e2, c)).
Proof.
  destruct c as [tok q sp err loaded node m ed cl]. plumb.
  destruct (sameDeps ed (tok, sp, err)); [reflexivity|].
  destruct cl, m, tok, err; plumb; try reflexivity;
    match goal with
    | |- context [JsString.startsWith ?s ?p] =>
        destruct (JsString.startsWith s p); reflexivity
    end.
Qed.

(** What the container becomes does not depend on the environment. *)
Lemma render_snd_env (e1 e2 : Env) (c : MapContainer) :
  snd (render (e1, c)) = snd (render (e2, c)).
Proof.
  unfold render. pose proof (commit_snd_env e1 e2 c) as H.
  destruct (commit (e1, c)) as [e1' c1], (commit (e2, c)) as [e2' c2].
  cbn in H. subst c2. apply commit_snd_env.
Qed.

Lemma boot_token (t : jsstring) :
  JsString.isEmpty t = false ->
  boot (Some t) =
  mkApp (fst (render (mkEnv (Some t) [] [] [] 0, mount t))) t
        (MapPage (snd (render (mkEnv (Some t) [] [] [] 0, mount t)))).
Proof.
  intros Ht. unfold boot, renderIndex, handleTokenSubmit. rewrite Ht.
  cbn [index_mapboxToken page env]. rewrite Ht.
  destruct (render _). reflexivity.
Qed.

End PageLoad.

(** X4. Page load. The store is only read. Without a stored token, or with
    an empty one, the form is shown; a stored token opens the map page at
    once, with no message: a token starting with "pk." gets exactly one map,
    any other goes to the invalid-format error screen without the engine
    being called. *)
Theorem boot_decides (stored : option jsstring) :
  localStorage (env (boot stored)) = stored /\
  toasts (env (boot stored)) = [] /\
  requests (env (boot stored)) = [] /\
  (stored = None \/ stored = Some [] ->
   page (boot stored) = TokenForm (mkTokenInput [] false) /\
   engine (env (boot stored)) = []) /\
  (forall t, stored = Some t -> t <> [] ->
     exists c, page (boot stored) = MapPage c /\ mapboxToken c = t /\
       (JsString.startsWith t (lit "pk.") = true ->
          view c = MainView /\ map c = freshMap t true /\
          engine (env (boot stored)) = [CreateMap t]) /\
       (JsString.startsWith t (lit "pk.") = false ->
          view c = ErrorScreen /\ mapError c = msgInvalidFormat /\
          map c = None /\ engine (env (boot stored)) = [])).
Proof.
  destruct stored as [[|c0 r]|].
  - split; [reflexivity|]. split; [reflexivity|]. split; [reflexivity|].
    split; [intros _; split; reflexivity|].
    intros t H Hne. injection H as <-. contradiction.
  - set (t := c0 :: r).
    assert (Ht : JsString.isEmpty t = false) by reflexivity.
    rewrite (boot_token t Ht).
    destruct (JsString.startsWith t (lit "pk.")) eqn:Hpk.
    + rewrite (render_create _ (mount t)); try reflexivity; try assumption;
        [|discriminate].
      split; [reflexivity|]. split; [reflexivity|]. split; [reflexivity|].
      split; [intros [H | H]; discriminate|].
      intros t' H _. injection H as <-. eexists. split; [reflexivity|].
      split; [reflexivity|]. rewrite Hpk. split; [|discriminate]. intros _.
      repeat split.
    + rewrite (render_badToken _ (mount t)); try reflexivity; try assumption;
        [|discriminate].
      split; [reflexivity|]. split; [reflexivity|]. split; [reflexivity|].
      split; [intros [H | H]; discriminate|].
      intros t' H _. injection H as <-. eexists. split; [reflexivity|].
      split; [reflexivity|]. rewrite Hpk. split; [discriminate|]. intros _.
      repeat split.
  - split; [reflexivity|]. split; [reflexivity|]. split; [reflexivity|].
    split; [intros _; split; reflexivity|]. intros t H. discriminate.
Qed.

(** X5. What the form stores is what the next page load reads: loading the
    page with the store a submission left shows the very map page the
    submission opened, error screen included. *)
Theorem reload_after_submit (a : App) (f : TokenInput) :
  page a = TokenForm f ->
  JsString.isEmpty (JsString.trim (token f)) = false ->
  page (boot (localStorage (env (step a SubmitToken))))
  = page (step a SubmitToken) /\
  index_mapboxToken (boot (localStorage (env (step a SubmitToken))))
  = index_mapboxToken (step a SubmitToken).
Proof.
  intros Hp Ht. rewrite (submit_nonempty a f Hp Ht).
  cbn [env page index_mapboxToken].
  assert (Hs : localStorage (fst (render (saved a f, mount (token f))))
               = Some (token f)).
  { destruct (JsString.startsWith (token f) (lit "pk.")) eqn:Hpk.
    - rewrite (render_create _ (mount (token f))); try reflexivity;
        try assumption; [discriminate|exact (trim_nonempty _ Ht)].
    - rewrite (render_badToken _ (mount (token f))); try reflexivity;
        try assumption; [discriminate|exact (trim_nonempty _ Ht)]. }
  rewrite Hs, (boot_token _ (trim_nonempty _ Ht)). cbn [page index_mapboxToken].
  split; [|reflexivity]. f_equal. apply render_snd_env.
Qed.

Lemma reload_after_submit_witness :
  page (boot (localStorage (env (step (typed (lit "pk.abc")) SubmitToken))))
  = page (step (typed (lit "pk.abc")) SubmitToken) /\
  index_mapboxToken
    (boot (localStorage (env (step (typed (lit "pk.abc")) SubmitToken))))
  = index_mapboxToken (step (typed (lit "pk.abc")) SubmitToken).
Proof.
  apply (reload_after_submit (typed (lit "pk.abc"))
                             (mkTokenInput (lit "pk.abc") false)).
  - reflexivity.
  - reflexivity.
Defined.

(** ** The error screen *)

Section ErrorScreenFacts.

Local Arguments spinGlobe : simpl never.
Local Arguments JsString.trim : simpl never.
Local Arguments lit : simpl never.

Lemma requests_off_main (e : Env) (c : MapContainer) (ev : Event) :
  isMainView (view c) = false ->
  requests (fst (handleMapPage ev (e, c))) = requests e.
Proof.
  intros Hv. unfold handleMapPage, onMapEvent. rewrite Hv.
  destruct ev as [| | |mev| | | |o| | | | | |l]; try reflexivity.
  - destruct (closure c); [destruct mev|]; reflexivity.
  - destruct (pending e); [reflexivity|]. unfold handleSearch_settled.
    destruct o as [| |[[[|f fs]|]]]; try reflexivity.
    cbn [features]. destruct (map c); reflexivity.
  - apply (burst_framed l (e, c)).
Qed.

End ErrorScreenFacts.

(** X7. The error screen is final for the session. Whatever happens on it
    short of the recovery button (signals of the engine, a search that
    settles late, any key or click), the page stays the error screen with the
    same message, no listener is registered, the engine is not called, no
    request is sent and the store is not touched. *)
Theorem error_screen_final (a : App) (c : MapContainer) (ev : Event) :
  reachable a -> page a = MapPage c -> isMainView (view c) = false ->
  ev <> ClickEnterNewToken ->
  view c = ErrorScreen /\
  exists c', page (step a ev) = MapPage c' /\
    view c' = ErrorScreen /\ mapError c' = mapError c /\
    mapboxToken c' = mapboxToken c /\ isSpinning c' = isSpinning c /\
    closure c' = None /\
    engine (env (step a ev)) = engine (env a) /\
    requests (env (step a ev)) = requests (env a) /\
    localStorage (env (step a ev)) = localStorage (env a).
Proof.
  intros Hr Hp Hv Hev.
  pose proof (reachable_inv _ Hr) as HI. unfold Inv in HI.
  rewrite Hp in HI. destruct HI as [_ HS].
  pose proof (quiet_off_main (env a) c ev HS Hv) as Hd.
  pose proof (handle_bookkeeping ev (env a) c) as (_ & _ & _ & He & Hl & Hk).
  pose proof (requests_off_main (env a) c ev Hv) as Hq.
  rewrite (stable_error _ _ HS Hv) in Hk.
  assert (Hview : view c = ErrorScreen).
  { pose proof (map_page_token a c Hr Hp) as Htok. unfold view in *.
    rewrite Htok in *. destruct (JsString.isEmpty (mapError c));
      [discriminate|reflexivity]. }
  split; [exact Hview|].
  rewrite (step_quiet a c ev Hr Hp Hev Hd). eexists. split; [reflexivity|].
  cbn [env]. rewrite (view_deps _ _ Hd).
  unfold deps in Hd.
  destruct (closure (snd (handleMapPage ev (env a, c)))); [discriminate|].
  repeat split; try assumption; congruence.
Qed.

Lemma error_screen_final_witness :
  view (containerOf erroredApp) = ErrorScreen /\
  exists c', page (step erroredApp (Engine moveend)) = MapPage c' /\
    view c' = ErrorScreen /\ mapError c' = mapError (containerOf erroredApp) /\
    mapboxToken c' = mapboxToken (containerOf erroredApp) /\
    isSpinning c' = isSpinning (containerOf erroredApp) /\
    closure c' = None /\
    engine (env (step erroredApp (Engine moveend))) = engine (env erroredApp) /\
    requests (env (step erroredApp (Engine moveend)))
    = requests (env erroredApp) /\
    localStorage (env (step erroredApp (Engine moveend)))
    = localStorage (env erroredApp).
Proof.
  apply (error_screen_final erroredApp (containerOf erroredApp) (Engine moveend)).
  - exists None, [TypeToken (lit "abc123"); SubmitToken]. reflexivity.
  - vm_compute. reflexivity.
  - vm_compute. reflexivity.
  - discriminate.
Defined.

(** ** Pointer down, pointer up *)

Section Pointer.

Local Arguments JsString.trim : simpl never.
Local Arguments lit : simpl never.
Local Arguments msgInitialized : simpl never.

(** The tick of a closure whose user is interacting does nothing. *)
Lemma spinGlobe_interacting (cl : Closure) (cur : option MapInstance) :
  userInteracting cl = true -> spinGlobe cl cur = cur.
Proof.
  intros H. unfold spinGlobe. destruct cur as [m|]; [|reflexivity].
  now rewrite H, andb_false_r.
Qed.

(** One more signal while the pointer is down. *)
Lemma held_step (a : App) (c : MapContainer) (cl : Closure) (m : MapInstance)
      (ev : Event) :
  reachable a -> page a = MapPage c -> closure c = Some cl ->
  userInteracting cl = true -> map c = Some m -> heldEvent ev = true ->
  exists c' cl' m',
    page (step a ev) = MapPage c' /\ closure c' = Some cl' /\
    userInteracting cl' = true /\ map c' = Some m' /\
    commands m' = commands m /\ markers m' = markers m /\
    isSpinning c' = isSpinning c /\
    engine (env (step a ev)) = engine (env a).
Proof.
  intros Hr Hp Hcl Hui Hm Hev.
  pose proof (reachable_inv _ Hr) as HI. unfold Inv in HI.
  rewrite Hp in HI. destruct HI as [_ HS].
  destruct (stable_closure _ _ _ HS Hcl) as (m0 & _ & _ & _ & Herr & _).
  assert (Hstep : forall e1 c1,
             handleMapPage ev (env a, c) = (e1, c1) -> deps c1 = deps c ->
             step a ev = mkApp e1 (index_mapboxToken a) (MapPage c1)).
  { intros e1 c1 E Hd. rewrite (step_quiet a c ev Hr Hp);
      [now rewrite E|destruct ev; discriminate|now rewrite E]. }
  destruct c as [tok q sp err loaded node mc ed clc]. cbn in Hcl, Hm, Herr.
  subst clc mc err.
  destruct ev as [| | |mev| | | | | | | | | |l]; try discriminate;
    [destruct mev; try discriminate|];
    (erewrite Hstep;
     [|unfold handleMapPage, onMapEvent, onCamera;
       cbn [closure map]; rewrite ?spinGlobe_interacting by assumption;
       reflexivity|reflexivity]);
    do 3 eexists; cbn; repeat split; try reflexivity; try assumption.
Qed.

Lemma held_run (evs : list Event) :
  forall (a : App) (c : MapContainer) (cl : Closure) (m : MapInstance),
    reachable a -> page a = MapPage c -> closure c = Some cl ->
    userInteracting cl = true -> map c = Some m ->
    forallb heldEvent evs = true ->
    exists c' cl' m',
      page (run a evs) = MapPage c' /\ closure c' = Some cl' /\
      userInteracting cl' = true /\ map c' = Some m' /\
      commands m' = commands m /\ markers m' = markers m /\
      isSpinning c' = isSpinning c /\
      engine (env (run a evs)) = engine (env a).
Proof.
  induction evs as [|ev evs IH]; intros a c cl m Hr Hp Hcl Hui Hm Hall.
  - exists c, cl, m. cbn. repeat split; assumption.
  - cbn [forallb] in Hall. apply andb_true_iff in Hall as [Hev Hall].
    destruct (held_step a c cl m ev Hr Hp Hcl Hui Hm Hev)
      as (c1 & cl1 & m1 & P1 & K1 & U1 & M1 & C1 & Mk1 & S1 & E1).
    destruct (IH (step a ev) c1 cl1 m1 (reachable_step a ev Hr) P1 K1 U1 M1 Hall)
      as (c2 & cl2 & m2 & P2 & K2 & U2 & M2 & C2 & Mk2 & S2 & E2).
    exists c2, cl2, m2. change (run a (ev :: evs)) with (run (step a ev) evs).
    repeat split; try assumption; congruence.
Qed.

End Pointer.

(** X8. Once the pointer goes down on the map, or a drag starts, the globe
    stands still whatever the rotation mode and the zoom: through any
    sequence of further presses, camera movements and [moveend], [load] and
    [style.load] signals no command is given to the map, and the flag stays
    up, [moveend] included: only [mouseup] and [touchend] lower it. *)
Theorem pointer_down_suppresses (a : App) (c : MapContainer) (cl : Closure)
        (press : MapEvent) (evs : list Event) :
  reachable a -> page a = MapPage c -> closure c = Some cl ->
  press = mousedown \/ press = dragstart ->
  forallb heldEvent evs = true ->
  exists m c' cl' m',
    map c = Some m /\
    page (run a (Engine press :: evs)) = MapPage c' /\
    closure c' = Some cl' /\ userInteracting cl' = true /\
    map c' = Some m' /\ commands m' = commands m /\
    isSpinning c' = isSpinning c /\
    engine (env (run a (Engine press :: evs))) = engine (env a).
Proof.
  intros Hr Hp Hcl Hpress Hall.
  pose proof (reachable_inv _ Hr) as HI. unfold Inv in HI.
  rewrite Hp in HI. destruct HI as [_ HS].
  destruct (stable_closure _ _ _ HS Hcl) as (m & Hm & _).
  assert (E : handleMapPage (Engine press) (env a, c)
              = (env a, set_closure c (Some (set_userInteracting cl true)))).
  { unfold handleMapPage, onMapEvent. rewrite Hcl.
    destruct Hpress as [-> | ->]; reflexivity. }
  assert (S1 : step a (Engine press)
               = mkApp (env a) (index_mapboxToken a)
                       (MapPage (set_closure c (Some (set_userInteracting cl true))))).
  { rewrite (step_quiet a c (Engine press) Hr Hp);
      [now rewrite E|discriminate|now rewrite E]. }
  destruct (held_run evs (step a (Engine press)) _
                     (set_userInteracting cl true) m
                     (reachable_step a _ Hr)
                     ltac:(rewrite S1; reflexivity) eq_refl eq_refl Hm Hall)
    as (c' & cl' & m' & P & K & U & M & C & _ & S & En).
  exists m, c', cl', m'.
  change (run a (Engine press :: evs)) with (run (step a (Engine press)) evs).
  repeat split; try assumption.
  rewrite En, S1. reflexivity.
Qed.

Lemma pointer_down_suppresses_witness :
  exists m c' cl' m',
    map (containerOf loadedApp) = Some m /\
    page (run loadedApp
              [Engine mousedown; Engine moveend;
               EngineCamera (mkCamera (mkLngLat 10 20) 2 45); Engine moveend])
    = MapPage c' /\
    closure c' = Some cl' /\ userInteracting cl' = true /\
    map c' = Some m' /\ commands m' = commands m /\
    isSpinning c' = isSpinning (containerOf loadedApp) /\
    engine (env (run loadedApp
                     [Engine mousedown; Engine moveend;
                      EngineCamera (mkCamera (mkLngLat 10 20) 2 45);
                      Engine moveend]))
    = engine (env loadedApp).
Proof.
  apply (pointer_down_suppresses loadedApp (containerOf loadedApp)
           (mkClosure true false) mousedown
           [Engine moveend; EngineCamera (mkCamera (mkLngLat 10 20) 2 45);
            Engine moveend]).
  - exists None, [TypeToken (lit "pk.abc"); SubmitToken; Engine load].
    reflexivity.
  - vm_compute. reflexivity.
  - vm_compute. reflexivity.
  - left. reflexivity.
  - reflexivity.
Defined.

(** X9. [mouseup] and [touchend] lower the flag and tick at once: whatever
    the flag was, it is down afterwards, and the map gets one pan when
    rotation is on and the zoom is below 5, and nothing otherwise. *)
Theorem release_resumes (a : App) (c : MapContainer) (cl : Closure)
        (release : MapEvent) :
  reachable a -> page a = MapPage c -> closure c = Some cl ->
  release = mouseup \/ release = touchend ->
  exists m c' m',
    map c = Some m /\
    page (step a (Engine release)) = MapPage c' /\
    closure c' = Some (mkClosure (isSpinning c) false) /\
    map c' = Some m' /\
    commands m' =
    (if isSpinning c && (getZoom m <? maxSpinZoom)
     then [EaseTo (mkLngLat (lng (getCenter m) - distancePerSecond (getZoom m))
                            (lat (getCenter m)))
                  1000 (fun n => n)]
     else []) ++ commands m /\
    markers m' = markers m /\ camera m' = camera m.
Proof.
  intros Hr Hp Hcl Hrel.
  pose proof (reachable_inv _ Hr) as HI. unfold Inv in HI.
  rewrite Hp in HI. destruct HI as [_ HS].
  destruct (stable_closure _ _ _ HS Hcl) as (m & Hm & _ & Hsp & _).
  assert (E : handleMapPage (Engine release) (env a, c)
              = (env a,
                 set_map (set_closure c (Some (mkClosure (isSpinning c) false)))
                         (spinGlobe (mkClosure (isSpinning c) false) (Some m)))).
  { unfold handleMapPage, onMapEvent. rewrite Hcl, Hm.
    unfold set_userInteracting. rewrite Hsp.
    destruct Hrel as [-> | ->]; reflexivity. }
  rewrite (step_quiet a c (Engine release) Hr Hp);
    [rewrite E|discriminate|now rewrite E].
  rewrite spinGlobe_cases. cbn [cl_isSpinning userInteracting negb].
  rewrite andb_true_r.
  exists m. eexists. eexists. split; [exact Hm|]. split; [reflexivity|].
  cbn [closure map set_map set_closure fst snd]. split; [reflexivity|].
  split; [reflexivity|].
  destruct (isSpinning c && (getZoom m <? maxSpinZoom)); repeat split.
Qed.

Lemma release_resumes_witness :
  exists m c' m',
    map (containerOf pressedApp) = Some m /\
    page (step pressedApp (Engine mouseup)) = MapPage c' /\
    closure c' = Some (mkClosure (isSpinning (containerOf pressedApp)) false) /\
    map c' = Some m' /\
    commands m' =
    (if isSpinning (containerOf pressedApp) && (getZoom m <? maxSpinZoom)
     then [EaseTo (mkLngLat (lng (getCenter m) - distancePerSecond (getZoom m))
                            (lat (getCenter m)))
                  1000 (fun n => n)]
     else []) ++ commands m /\
    markers m' = markers m /\ camera m' = camera m.
Proof.
  apply (release_resumes pressedApp (containerOf pressedApp)
                         (mkClosure true true) mouseup).
  - exists None, [TypeToken (lit "pk.abc"); SubmitToken; Engine load;
                  Engine mousedown].
    reflexivity.
  - vm_compute. reflexivity.
  - vm_compute. reflexivity.
  - left. reflexivity.
Defined.

(** ** The token in use *)

Section TokenInUse.

Local Arguments spinGlobe : simpl never.
Local Arguments JsString.trim : simpl never.
Local Arguments JsString.isEmpty : simpl never.
Local Arguments JsString.startsWith : simpl never.
Local Arguments lit : simpl never.
Local Arguments geocodingUrl : simpl never.
Local Arguments URI.encodeURIComponent : simpl never.
Local Arguments popupFor : simpl never.
Local Arguments classifyError : simpl never.
Local Arguments msgInitialized : simpl never.

Lemma commit_localStorage (e : Env) (c : MapContainer) :
  localStorage (fst (commit (e, c))) = localStorage e.
Proof.
  destruct c as [tok q sp err loaded node m ed cl]. unfold commit.
  cbn [set_mapContainer effectDeps deps mapboxToken isSpinning mapError].
  destruct (sameDeps _ _); [reflexivity|].
  unfold mapEffect, cleanup. cbn.
  destruct cl, m; cbn; destruct (isMainView _); cbn; try reflexivity;
    destruct (JsString.isEmpty tok); cbn; try reflexivity;
    destruct (JsString.startsWith tok (lit "pk.")); reflexivity.
Qed.

Lemma render_localStorage (e : Env) (c : MapContainer) :
  localStorage (fst (render (e, c))) = localStorage e.
Proof.
  unfold render. destruct (commit (e, c)) as [e1 c1] eqn:E.
  rewrite commit_localStorage. change e1 with (fst (e1, c1)). rewrite <- E.
  apply commit_localStorage.
Qed.

(** A commit leaves [map.current] as it is, or removed, or puts a map just
    built there, and that only for a token that starts with "pk.". *)
Lemma commit_map (e : Env) (c : MapContainer) (m' : MapInstance) :
  map (snd (commit (e, c))) = Some m' ->
  (exists m, map c = Some m /\ (m' = m \/ m' = remove m))
  \/ (JsString.startsWith (mapboxToken c) (lit "pk.") = true /\
      freshMap (mapboxToken c) (isSpinning c) = Some m').
Proof.
  destruct c as [tok q sp err loaded node m ed cl]. unfold commit.
  cbn [set_mapContainer effectDeps deps mapboxToken isSpinning mapError map].
  destruct (sameDeps _ _); [cbn; intros H; left; eauto|].
  unfold mapEffect, cleanup, freshMap. cbn.
  destruct cl, m; cbn; destruct (isMainView _); cbn;
    try (intros H; left; eexists; split; [reflexivity|];
         injection H as <-; auto; fail);
    try discriminate;
    destruct (JsString.isEmpty tok); cbn;
    try (intros H; left; eexists; split; [reflexivity|];
         injection H as <-; auto; fail);
    try discriminate;
    destruct (JsString.startsWith tok (lit "pk.")); cbn;
    try (intros H; left; eexists; split; [reflexivity|];
         injection H as <-; auto; fail);
    try discriminate;
    intros H; right; auto.
Qed.

Lemma freshMap_built (tok : jsstring) (sp : bool) (m : MapInstance) :
  freshMap tok sp = Some m -> builtFor tok m.
Proof.
  unfold freshMap. rewrite spinGlobe_cases. intros H. injection H as <-.
  destruct (_ && _); repeat split.
Qed.

Lemma commit_built (e : Env) (c : MapContainer) :
  (forall m, map c = Some m ->
             builtFor (mapboxToken c) m /\
             JsString.startsWith (mapboxToken c) (lit "pk.") = true) ->
  forall m', map (snd (commit (e, c))) = Some m' ->
             builtFor (mapboxToken c) m' /\
             JsString.startsWith (mapboxToken c) (lit "pk.") = true.
Proof.
  intros H m' Hm'.
  destruct (commit_map e c m' Hm') as [(m & Hm & [-> | ->]) | [Hpk Hf]].
  - auto.
  - destruct (H m Hm) as [B Hpk]. split; [|exact Hpk]. exact B.
  - split; [|exact Hpk]. exact (freshMap_built _ _ _ Hf).
Qed.

Lemma render_built (e : Env) (c : MapContainer) :
  (forall m, map c = Some m ->
             builtFor (mapboxToken c) m /\
             JsString.startsWith (mapboxToken c) (lit "pk.") = true) ->
  forall m', map (snd (render (e, c))) = Some m' ->
             builtFor (mapboxToken c) m' /\
             JsString.startsWith (mapboxToken c) (lit "pk.") = true.
Proof.
  intros H. unfold render.
  pose proof (commit_built e c H) as H1.
  pose proof (commit_token e c) as T1.
  destruct (commit (e, c)) as [e1 c1]. cbn [snd] in *.
  rewrite <- T1. apply commit_built. now rewrite T1.
Qed.

(** No handler replaces the map or touches what it was built with. *)
Lemma handle_built (ev : Event) (e : Env) (c : MapContainer) (m' : MapInstance) :
  map (snd (handleMapPage ev (e, c))) = Some m' ->
  exists m, map c = Some m /\ accessToken m' = accessToken m /\
            style m' = style m /\ projection m' = projection m /\
            controls m' = controls m.
Proof.
  destruct ev as [| | |mev| | | |o| | | | | |l];
    [ > destruct c as [tok q sp err loaded node m ed cl];
        unfold handleMapPage, handleSearch, onMapEvent, onCamera; cbn;
        try destruct mev; try destruct (pending e);
        try destruct o as [| |[[[|f fs]|]]];
        try destruct (isMainView _);
        try destruct (JsString.isEmpty (JsString.trim q)
                      || JsString.isEmpty tok);
        try destruct (URI.encodeURIComponent q);
        destruct cl as [cl|], m as [m|]; cbn;
        rewrite ?spinGlobe_cases; cbn;
        intros H; try discriminate; injection H as <-;
        eexists; (split; [reflexivity|]);
        try (destruct (_ && _)); repeat split ..
    | ].
  change (handleMapPage (Burst l) (e, c))
    with (fold_left (fun ec x => handleAsync x ec) l (e, c)).
  intros H.
  destruct (burst_framed l (e, c)) as (_ & _ & _ & _ & _ & _ & _ & _ & _ & F).
  cbn [fst snd] in F. destruct (map c) as [m|].
  - destruct F as (m1 & E1 & _ & T1 & S1 & P1 & C1).
    rewrite H in E1. injection E1 as <-. exists m. auto.
  - rewrite H in F. discriminate.
Qed.

Lemma built_mount (e : Env) (t : jsstring) :
  localStorage e = Some t ->
  Built (mkApp (fst (render (e, mount t))) t (MapPage (snd (render (e, mount t))))).
Proof.
  intros Hl. unfold Built. cbn [page env].
  rewrite render_token, render_localStorage. cbn [mount mapboxToken].
  split; [exact Hl|].
  apply (render_built e (mount t)). intros m H. discriminate.
Qed.

Lemma boot_built (stored : option jsstring) : Built (boot stored).
Proof.
  destruct stored as [t|]; [|exact I].
  destruct (JsString.isEmpty t) eqn:Ht.
  - unfold boot. rewrite Ht. exact I.
  - rewrite (boot_token t Ht). now apply built_mount.
Qed.

Lemma step_built (a : App) (ev : Event) :
  Inv a -> Built a -> Built (step a ev).
Proof.
  destruct a as [e tok [f|c]]; unfold Inv, step; cbn [page env index_mapboxToken].
  - intros [-> _] _. destruct ev; try exact I.
    unfold handleSubmit. cbn [page env index_mapboxToken].
    destruct (JsString.isEmpty (JsString.trim (token f))) eqn:Ht; [exact I|].
    unfold renderIndex, handleTokenSubmit. cbn [page env index_mapboxToken].
    rewrite (trim_nonempty _ Ht).
    pose proof (built_mount (saved (mkApp e [] (TokenForm f)) f) (token f) eq_refl) as H.
    unfold saved in H. cbn [env] in H.
    destruct (render _). exact H.
  - intros [-> _] [Hl Hb].
    assert (Hgen : forall ev',
               let r := render (handleMapPage ev' (e, c)) in
               Built (mkApp (fst r) (mapboxToken c) (MapPage (snd r)))).
    { intros ev'. cbv zeta. unfold Built. cbn [page env].
      pose proof (handle_bookkeeping ev' e c) as (Ht & _ & _ & _ & Hls & _).
      pose proof (handle_built ev' e c) as Hh.
      destruct (handleMapPage ev' (e, c)) as [e1 c1]. cbn [fst snd] in *.
      rewrite render_token, render_localStorage, Ht, Hls.
      split; [exact Hl|]. rewrite <- Ht. apply (render_built e1 c1).
      intros m' Hm'. destruct (Hh m' Hm') as (m & Hm & Ha & Hs & Hp & Hc).
      destruct (Hb m Hm) as [(B1 & B2 & B3 & B4) Hpk]. rewrite Ht.
      unfold builtFor. repeat split; congruence. }
    destruct ev;
      try match goal with
          | |- context [render (handleMapPage ?x _)] =>
              specialize (Hgen x); cbv zeta in Hgen;
              destruct (render (handleMapPage x (e, c))); exact Hgen
          end.
    destruct (isErrorScreen (view c)); [exact I|].
    split; assumption.
Qed.

Lemma reachable_built (a : App) : reachable a -> Built a.
Proof.
  intros (stored & evs & ->). unfold run.
  generalize (boot_built stored) (boot_inv stored). generalize (boot stored).
  induction evs as [|ev evs IH]; intros a0 B0 I0; cbn; [assumption|].
  apply IH; [now apply step_built|now apply step_inv].
Qed.

End TokenInUse.

(** X10. On the map page the store always holds the token in use, which is
    the token of [Index]; and a map that [map.current] refers to was built
    with that token as its access token, a token that starts with "pk.", in
    the dark style and the globe projection, and carries the one navigation
    control: no event of the session changes what the map was built with. *)
Theorem token_in_use (a : App) (c : MapContainer) :
  reachable a -> page a = MapPage c ->
  localStorage (env a) = Some (mapboxToken c) /\
  index_mapboxToken a = mapboxToken c /\
  forall m, map c = Some m ->
    accessToken m = mapboxToken c /\
    JsString.startsWith (accessToken m) (lit "pk.") = true /\
    style m = lit "mapbox://styles/mapbox/dark-v11" /\
    projection m = lit "globe" /\
    controls m = [mkNav true (lit "top-right")].
Proof.
  intros Hr Hp. pose proof (reachable_built a Hr) as B.
  pose proof (reachable_inv a Hr) as HI. unfold Built, Inv in *.
  rewrite Hp in *. destruct B as [Hl Hb]. destruct HI as [Hi _].
  split; [exact Hl|]. split; [exact Hi|].
  intros m Hm. destruct (Hb m Hm) as [(B1 & B2 & B3 & B4) Hpk].
  rewrite B1. auto.
Qed.

Lemma token_in_use_witness :
  localStorage (env waitingApp) = Some (mapboxToken (containerOf waitingApp)) /\
  index_mapboxToken waitingApp = mapboxToken (containerOf waitingApp) /\
  forall m, map (containerOf waitingApp) = Some m ->
    accessToken m = mapboxToken (containerOf waitingApp) /\
    JsString.startsWith (accessToken m) (lit "pk.") = true /\
    style m = lit "mapbox://styles/mapbox/dark-v11" /\
    projection m = lit "globe" /\
    controls m = [mkNav true (lit "top-right")].
Proof.
  apply (token_in_use waitingApp (containerOf waitingApp)).
  - exists None, [TypeToken (lit "pk.abc"); SubmitToken; Engine load;
                  TypeQuery (lit "Paris"); SubmitSearch].
    reflexivity.
  - vm_compute. reflexivity.
Defined.

(** X11. The token is set once. On the map page no event but the recovery
    button of the error screen leaves the page, changes the token of the
    page or of [Index], or writes the store. *)
Theorem map_page_stays (a : App) (c : MapContainer) (ev : Event) :
  reachable a -> page a = MapPage c ->
  ev <> ClickEnterNewToken \/ isMainView (view c) = true ->
  exists c', page (step a ev) = MapPage c' /\
    mapboxToken c' = mapboxToken c /\
    index_mapboxToken (step a ev) = index_mapboxToken a /\
    localStorage (env (step a ev)) = localStorage (env a).
Proof.
  intros Hr Hp Hev.
  assert (Hgen : ev <> ClickEnterNewToken ->
                 step a ev =
                 mkApp (fst (render (handleMapPage ev (env a, c))))
                       (index_mapboxToken a)
                       (MapPage (snd (render (handleMapPage ev (env a, c)))))).
  { intros H. unfold step. rewrite Hp.
    destruct ev; try contradiction; destruct (render _); reflexivity. }
  assert (Hok : ev <> ClickEnterNewToken ->
                exists c', page (step a ev) = MapPage c' /\
                  mapboxToken c' = mapboxToken c /\
                  index_mapboxToken (step a ev) = index_mapboxToken a /\
                  localStorage (env (step a ev)) = localStorage (env a)).
  { intros H. rewrite (Hgen H). eexists. split; [reflexivity|].
    cbn [env index_mapboxToken].
    pose proof (handle_bookkeeping ev (env a) c) as (Ht & _ & _ & _ & Hl & _).
    destruct (handleMapPage ev (env a, c)) as [e1 c1]. cbn [fst snd] in *.
    rewrite render_token, render_localStorage. auto. }
  destruct Hev as [H | Hv]; [exact (Hok H)|].
  destruct ev; try (apply Hok; discriminate).
  exists c. unfold step. rewrite Hp.
  destruct (view c); try discriminate. cbn. rewrite Hp. auto.
Qed.

Lemma map_page_stays_witness :
  exists c', page (step loadedApp ClickToggleSpin) = MapPage c' /\
    mapboxToken c' = mapboxToken (containerOf loadedApp) /\
    index_mapboxToken (step loadedApp ClickToggleSpin)
    = index_mapboxToken loadedApp /\
    localStorage (env (step loadedApp ClickToggleSpin))
    = localStorage (env loadedApp).
Proof.
  apply (map_page_stays loadedApp (containerOf loadedApp) ClickToggleSpin).
  - exists None, [TypeToken (lit "pk.abc"); SubmitToken; Engine load].
    reflexivity.
  - vm_compute. reflexivity.
  - left. discriminate.
Defined.

(** ** What a toggle does to the map *)

Section Rebuild.

(** The map the effect builds, after its first tick. *)
Lemma freshMap_value (tok : jsstring) (sp : bool) :
  freshMap tok sp =
  Some (mkMap tok (lit "mapbox://styles/mapbox/dark-v11") (lit "globe")
              (mkCamera (mkLngLat 30 15) 1.5 45)
              [mkNav true (lit "top-right")] None []
              (if sp then [EaseTo (mkLngLat 28.5 15) 1000 (fun n => n)] else [])
              false).
Proof. destruct sp; reflexivity. Qed.

Lemma toggled_main (a : App) (c : MapContainer) :
  reachable a -> page a = MapPage c -> isMainView (view c) = true ->
  exists c1,
    page (step a ClickToggleSpin) = MapPage c1 /\
    isMainView (view c1) = true /\
    mapboxToken c1 = mapboxToken c /\ searchQuery c1 = searchQuery c /\
    isSpinning c1 = negb (isSpinning c) /\ isMapLoaded c1 = isMapLoaded c /\
    map c1 = freshMap (mapboxToken c) (negb (isSpinning c)) /\
    closure c1 = Some (mkClosure (negb (isSpinning c)) false) /\
    env (step a ClickToggleSpin)
    = call (call (toast (env a) TInfo
                        (if isSpinning c then lit "Globe rotation paused"
                         else lit "Globe rotation resumed"))
                 RemoveMap)
           (CreateMap (mapboxToken c)).
Proof.
  intros Hr Hp Hv. rewrite (step_toggleSpin a c Hr Hp Hv).
  eexists. split; [reflexivity|]. cbn.
  unfold view. cbn. rewrite (map_page_token a c Hr Hp). repeat split.
Qed.

End Rebuild.

(** X12. Toggling rotation in the main view replaces the map by a new one:
    whatever markers, fog and camera the old map had, the map on screen
    afterwards has no marker and no fog, stands at the initial camera, and
    has been given one pan exactly when rotation is now on; the query and the
    loaded flag are kept, though the new map has not loaded. Toggling twice
    brings the rotation mode back, not the map: two maps have been removed
    and two built. *)
Theorem toggle_rebuilds_map (a : App) (c : MapContainer) :
  reachable a -> page a = MapPage c -> isMainView (view c) = true ->
  (exists c1 m1,
      page (step a ClickToggleSpin) = MapPage c1 /\ map c1 = Some m1 /\
      markers m1 = [] /\ fog m1 = None /\
      camera m1 = mkCamera (mkLngLat 30 15) 1.5 45 /\ removed m1 = false /\
      commands m1 = (if isSpinning c then []
                     else [EaseTo (mkLngLat 28.5 15) 1000 (fun n => n)]) /\
      searchQuery c1 = searchQuery c /\ isMapLoaded c1 = isMapLoaded c /\
      toasts (env (step a ClickToggleSpin))
      = mkToast TInfo (if isSpinning c then lit "Globe rotation paused"
                       else lit "Globe rotation resumed")
          :: toasts (env a)) /\
  (exists c2,
      page (run a [ClickToggleSpin; ClickToggleSpin]) = MapPage c2 /\
      isSpinning c2 = isSpinning c /\
      map c2 = freshMap (mapboxToken c) (isSpinning c) /\
      closure c2 = Some (mkClosure (isSpinning c) false) /\
      engine (env (run a [ClickToggleSpin; ClickToggleSpin]))
      = CreateMap (mapboxToken c) :: RemoveMap
          :: CreateMap (mapboxToken c) :: RemoveMap :: engine (env a)).
Proof.
  intros Hr Hp Hv.
  destruct (toggled_main a c Hr Hp Hv)
    as (c1 & P1 & V1 & T1 & Q1 & S1 & L1 & M1 & K1 & E1).
  split.
  - rewrite freshMap_value in M1. exists c1. eexists.
    split; [exact P1|]. split; [exact M1|]. rewrite E1. cbn.
    destruct (isSpinning c); repeat split; assumption.
  - destruct (toggled_main (step a ClickToggleSpin) c1
                (reachable_step a _ Hr) P1 V1)
      as (c2 & P2 & V2 & T2 & Q2 & S2 & L2 & M2 & K2 & E2).
    exists c2. change (run a [ClickToggleSpin; ClickToggleSpin])
      with (step (step a ClickToggleSpin) ClickToggleSpin).
    rewrite S1, negb_involutive, T1 in *.
    split; [exact P2|]. split; [exact S2|]. split; [exact M2|].
    split; [exact K2|]. rewrite E2, E1. reflexivity.
Qed.

Lemma toggle_rebuilds_map_witness :
  (exists c1 m1,
      page (step waitingApp ClickToggleSpin) = MapPage c1 /\ map c1 = Some m1 /\
      markers m1 = [] /\ fog m1 = None /\
      camera m1 = mkCamera (mkLngLat 30 15) 1.5 45 /\ removed m1 = false /\
      commands m1 = (if isSpinning (containerOf waitingApp) then []
                     else [EaseTo (mkLngLat 28.5 15) 1000 (fun n => n)]) /\
      searchQuery c1 = searchQuery (containerOf waitingApp) /\
      isMapLoaded c1 = isMapLoaded (containerOf waitingApp) /\
      toasts (env (step waitingApp ClickToggleSpin))
      = mkToast TInfo (if isSpinning (containerOf waitingApp)
                       then lit "Globe rotation paused"
                       else lit "Globe rotation resumed")
          :: toasts (env waitingApp)) /\
  (exists c2,
      page (run waitingApp [ClickToggleSpin; ClickToggleSpin]) = MapPage c2 /\
      isSpinning c2 = isSpinning (containerOf waitingApp) /\
      map c2 = freshMap (mapboxToken (containerOf waitingApp))
                        (isSpinning (containerOf waitingApp)) /\
      closure c2 = Some (mkClosure (isSpinning (containerOf waitingApp)) false) /\
      engine (env (run waitingApp [ClickToggleSpin; ClickToggleSpin]))
      = CreateMap (mapboxToken (containerOf waitingApp)) :: RemoveMap
          :: CreateMap (mapboxToken (containerOf waitingApp)) :: RemoveMap
          :: engine (env waitingApp)).
Proof.
  apply (toggle_rebuilds_map waitingApp (containerOf waitingApp)).
  - exists None, [TypeToken (lit "pk.abc"); SubmitToken; Engine load;
                  TypeQuery (lit "Paris"); SubmitSearch].
    reflexivity.
  - vm_compute. reflexivity.
  - vm_compute. reflexivity.
Defined.

(** X13. A search that settles after the map has been replaced puts its
    marker on the new map ([map.current] is read when the response arrives):
    the marker is then the only one, the markers of the earlier searches
    having gone with the old map. *)
Theorem late_response_on_new_map (a : App) (c : MapContainer)
        (f : Feature) (rest : list Feature) :
  reachable a -> page a = MapPage c -> isMainView (view c) = true ->
  pending (env a) <> 0%nat ->
  exists m2,
    mapOf (run a [ClickToggleSpin;
                  SearchSettled (Json (mkGeoData (Some (f :: rest))))])
    = Some m2 /\
    markers m2 = [markerFor f] /\
    commands m2 =
    FlyTo (f_center f) 12 None 2000
      :: (if isSpinning c then []
          else [EaseTo (mkLngLat 28.5 15) 1000 (fun n => n)]).
Proof.
  intros Hr Hp Hv Hn.
  destruct (toggled_main a c Hr Hp Hv)
    as (c1 & P1 & V1 & T1 & Q1 & S1 & L1 & M1 & K1 & E1).
  rewrite freshMap_value in M1.
  assert (N1 : pending (env (step a ClickToggleSpin)) <> 0%nat)
    by (rewrite E1; exact Hn).
  pose proof (step_found (step a ClickToggleSpin) c1 _ f rest
                         (reachable_step a _ Hr) P1 N1 M1) as S2.
  eexists.
  change (run a [ClickToggleSpin;
                 SearchSettled (Json (mkGeoData (Some (f :: rest))))])
    with (step (step a ClickToggleSpin)
               (SearchSettled (Json (mkGeoData (Some (f :: rest)))))).
  unfold mapOf, containerOf. rewrite S2. cbn [page map set_map].
  split; [reflexivity|]. unfold found. cbn. rewrite lngLat_eta.
  destruct (isSpinning c); split; reflexivity.
Qed.

Lemma late_response_on_new_map_witness :
  exists m2,
    mapOf (run waitingApp
               [ClickToggleSpin; SearchSettled (Json (mkGeoData (Some [paris])))])
    = Some m2 /\
    markers m2 = [markerFor paris] /\
    commands m2 =
    FlyTo (f_center paris) 12 None 2000
      :: (if isSpinning (containerOf waitingApp) then []
          else [EaseTo (mkLngLat 28.5 15) 1000 (fun n => n)]).
Proof.
  apply (late_response_on_new_map waitingApp (containerOf waitingApp) paris []).
  - exists None, [TypeToken (lit "pk.abc"); SubmitToken; Engine load;
                  TypeQuery (lit "Paris"); SubmitSearch].
    reflexivity.
  - vm_compute. reflexivity.
  - vm_compute. reflexivity.
  - vm_compute. discriminate.
Defined.

(** ** Zoom buttons and the engine's [load] *)

(** X14. The zoom buttons hand the engine one [zoomIn] or [zoomOut] each and
    change nothing else: no state of the page, no rotation, no marker, and
    the map is not rebuilt. The page keeps no zoom of its own: a [zoomIn]
    followed by a [zoomOut] is two commands. *)
Theorem zoom_buttons (a : App) (c : MapContainer) :
  reachable a -> page a = MapPage c -> isMainView (view c) = true ->
  exists m, map c = Some m /\
    step a ClickZoomIn
    = mkApp (env a) (index_mapboxToken a)
            (MapPage (set_map c (Some (issue m ZoomIn)))) /\
    step a ClickZoomOut
    = mkApp (env a) (index_mapboxToken a)
            (MapPage (set_map c (Some (issue m ZoomOut)))) /\
    mapOf (run a [ClickZoomIn; ClickZoomOut])
    = Some (issue (issue m ZoomIn) ZoomOut).
Proof.
  intros Hr Hp Hv.
  destruct (main_view_map a c Hr Hp Hv) as (cl & m & _ & Hm & _).
  exists m. split; [exact Hm|].
  assert (Hin : forall a0 c0 m0,
             reachable a0 -> page a0 = MapPage c0 ->
             isMainView (view c0) = true -> map c0 = Some m0 ->
             step a0 ClickZoomIn
             = mkApp (env a0) (index_mapboxToken a0)
                     (MapPage (set_map c0 (Some (issue m0 ZoomIn))))).
  { intros a0 c0 m0 Hr0 Hp0 Hv0 Hm0.
    assert (E : handleMapPage ClickZoomIn (env a0, c0)
                = (env a0, set_map c0 (Some (issue m0 ZoomIn))))
      by (unfold handleMapPage, zoomIn; now rewrite Hv0, Hm0).
    rewrite (step_quiet a0 c0 ClickZoomIn Hr0 Hp0);
      [now rewrite E|discriminate|now rewrite E]. }
  assert (Hout : forall a0 c0 m0,
             reachable a0 -> page a0 = MapPage c0 ->
             isMainView (view c0) = true -> map c0 = Some m0 ->
             step a0 ClickZoomOut
             = mkApp (env a0) (index_mapboxToken a0)
                     (MapPage (set_map c0 (Some (issue m0 ZoomOut))))).
  { intros a0 c0 m0 Hr0 Hp0 Hv0 Hm0.
    assert (E : handleMapPage ClickZoomOut (env a0, c0)
                = (env a0, set_map c0 (Some (issue m0 ZoomOut))))
      by (unfold handleMapPage, zoomOut; now rewrite Hv0, Hm0).
    rewrite (step_quiet a0 c0 ClickZoomOut Hr0 Hp0);
      [now rewrite E|discriminate|now rewrite E]. }
  split; [exact (Hin a c m Hr Hp Hv Hm)|].
  split; [exact (Hout a c m Hr Hp Hv Hm)|].
  change (run a [ClickZoomIn; ClickZoomOut])
    with (step (step a ClickZoomIn) ClickZoomOut).
  rewrite (Hout (step a ClickZoomIn) (set_map c (Some (issue m ZoomIn)))
                (issue m ZoomIn));
    [reflexivity|now apply reachable_step
    |now rewrite (Hin a c m Hr Hp Hv Hm)|exact Hv|reflexivity].
Qed.

Lemma zoom_buttons_witness :
  exists m, map (containerOf loadedApp) = Some m /\
    step loadedApp ClickZoomIn
    = mkApp (env loadedApp) (index_mapboxToken loadedApp)
            (MapPage (set_map (containerOf loadedApp) (Some (issue m ZoomIn)))) /\
    step loadedApp ClickZoomOut
    = mkApp (env loadedApp) (index_mapboxToken loadedApp)
            (MapPage (set_map (containerOf loadedApp) (Some (issue m ZoomOut)))) /\
    mapOf (run loadedApp [ClickZoomIn; ClickZoomOut])
    = Some (issue (issue m ZoomIn) ZoomOut).
Proof.
  apply (zoom_buttons loadedApp (containerOf loadedApp)).
  - exists None, [TypeToken (lit "pk.abc"); SubmitToken; Engine load].
    reflexivity.
  - vm_compute. reflexivity.
  - vm_compute. reflexivity.
Defined.

(** Errors and then [load], all before React renders: the listeners leave
    what [load] alone leaves. *)
Lemma errors_then_load (msgs : list (option jsstring)) (e : Env)
      (c : MapContainer) (cl : Closure) :
  closure c = Some cl -> mapError c = [] ->
  fold_left (fun ec x => handleAsync x ec)
            (List.map (fun m => Signal (error m)) msgs ++ [Signal load]) (e, c)
  = onMapEvent load (e, c).
Proof.
  destruct c as [tok q sp err loaded node m ed clc]. cbn [closure mapError].
  intros -> ->.
  assert (H : forall err,
             fold_left (fun ec x => handleAsync x ec)
               (List.map (fun m => Signal (error m)) msgs ++ [Signal load])
               (e, mkContainer tok q sp err loaded node m ed (Some cl))
             = (toast e TSuccess msgInitialized,
                mkContainer tok q sp [] true node m ed (Some cl))).
  { induction msgs as [|msg msgs IH]; intros err.
    - reflexivity.
    - cbn [List.map app fold_left]. exact (IH (classifyError msg)). }
  rewrite H. reflexivity.
Qed.

(** X15. The listener of [load] raises the loaded flag, announces the map
    and clears the error message. At a rendered main view no message is set,
    so a [load] that React renders on its own changes the flag and the
    toasts only. The listener stays registered until React renders: a [load]
    that follows errors of the engine before the render takes their message
    back, and the render then finds what [load] alone leaves, the main view
    with its map, its rotation and its effect. [style.load] only sets the fog
    of the map it finds. *)
Theorem load_signals (a : App) (c : MapContainer) (cl : Closure) :
  reachable a -> page a = MapPage c -> closure c = Some cl ->
  step a (Engine load)
  = mkApp (toast (env a) TSuccess msgInitialized) (index_mapboxToken a)
          (MapPage (setIsMapLoaded c true)) /\
  (forall msgs,
     step a (Burst (List.map (fun m => Signal (error m)) msgs ++ [Signal load]))
     = step a (Engine load)) /\
  (forall before after, forallb keepsError after = true ->
     let c' := containerOf (step a (Burst (before ++ Signal load :: after))) in
     view c' = MainView /\ mapError c' = [] /\ isSpinning c' = isSpinning c /\
     effectDeps c' = effectDeps c /\
     engine (env (step a (Burst (before ++ Signal load :: after))))
     = engine (env a)) /\
  exists m, map c = Some m /\
    step a (Engine styleload)
    = mkApp (env a) (index_mapboxToken a)
            (MapPage (set_map c (Some (setFog m atmosphere)))).
Proof.
  intros Hr Hp Hcl.
  pose proof (reachable_inv _ Hr) as HI. unfold Inv in HI.
  rewrite Hp in HI. destruct HI as [_ HS].
  destruct (stable_closure _ _ _ HS Hcl) as (m & Hm & _ & _ & Herr & _).
  assert (Hload : onMapEvent load (env a, c)
                  = (toast (env a) TSuccess msgInitialized,
                     setIsMapLoaded c true)).
  { unfold onMapEvent. rewrite Hcl. f_equal.
    destruct c; cbn in *. now subst. }
  assert (Hone : step a (Engine load)
                 = mkApp (toast (env a) TSuccess msgInitialized)
                         (index_mapboxToken a)
                         (MapPage (setIsMapLoaded c true))).
  { assert (E : handleMapPage (Engine load) (env a, c)
                = (toast (env a) TSuccess msgInitialized, setIsMapLoaded c true))
      by exact Hload.
    rewrite (step_quiet a c (Engine load) Hr Hp);
      [now rewrite E|discriminate|now rewrite E]. }
  split; [exact Hone|]. split; [|split].
  - intros msgs. rewrite Hone.
    set (l := List.map (fun m => Signal (error m)) msgs ++ [Signal load]).
    assert (E : handleMapPage (Burst l) (env a, c)
                = (toast (env a) TSuccess msgInitialized, setIsMapLoaded c true)).
    { change (handleMapPage (Burst l) (env a, c))
        with (fold_left (fun ec x => handleAsync x ec) l (env a, c)).
      unfold l. now rewrite (errors_then_load msgs (env a) c cl Hcl Herr). }
    rewrite (step_quiet a c (Burst l) Hr Hp);
      [now rewrite E|discriminate|now rewrite E].
  - intros before after Hk. cbv zeta.
    set (l := before ++ Signal load :: after).
    assert (Hl : mapError (snd (fold_left (fun ec x => handleAsync x ec) l
                                          (env a, c))) = [])
      by exact (burst_load_message before after (env a) c cl Hcl Hk).
    assert (Hd : deps (snd (handleMapPage (Burst l) (env a, c))) = deps c)
      by (apply burst_deps; assumption).
    rewrite (step_quiet a c (Burst l) Hr Hp) by (discriminate || exact Hd).
    unfold containerOf. cbn [env page].
    pose proof (handle_bookkeeping (Burst l) (env a) c)
      as (_ & Hed & _ & He & _).
    change (handleMapPage (Burst l) (env a, c))
      with (fold_left (fun ec x => handleAsync x ec) l (env a, c)) in *.
    destruct (burst_framed l (env a, c)) as (_ & F2 & _).
    cbn [fst snd] in F2.
    split; [|auto].
    rewrite (view_deps _ _ Hd).
    destruct HS as ((Htok & _) & _). unfold view. now rewrite Htok, Herr.
  - exists m. split; [exact Hm|].
    assert (E : handleMapPage (Engine styleload) (env a, c)
                = (env a, set_map c (Some (setFog m atmosphere))))
      by (unfold handleMapPage, onMapEvent; now rewrite Hcl, Hm).
    rewrite (step_quiet a c (Engine styleload) Hr Hp);
      [now rewrite E|discriminate|now rewrite E].
Qed.

Lemma load_signals_witness :
  step loadedApp (Engine load)
  = mkApp (toast (env loadedApp) TSuccess msgInitialized)
          (index_mapboxToken loadedApp)
          (MapPage (setIsMapLoaded (containerOf loadedApp) true)) /\
  step loadedApp
       (Burst [Signal (error (Some (lit "Failed to fetch")));
               Signal (error None); Signal load])
  = step loadedApp (Engine load) /\
  view (containerOf
          (step loadedApp
                (Burst [Signal (error None); Signal load; Signal moveend])))
  = MainView.
Proof.
  assert (Hr : reachable loadedApp).
  { exists None, [TypeToken (lit "pk.abc"); SubmitToken; Engine load].
    reflexivity. }
  assert (Hp : page loadedApp = MapPage (containerOf loadedApp))
    by (vm_compute; reflexivity).
  assert (Hcl : closure (containerOf loadedApp) = Some (mkClosure true false))
    by (vm_compute; reflexivity).
  destruct (load_signals loadedApp (containerOf loadedApp)
                         (mkClosure true false) Hr Hp Hcl)
    as (H1 & H2 & H3 & _).
  split; [exact H1|]. split.
  - exact (H2 [Some (lit "Failed to fetch"); None]).
  - apply (H3 [Signal (error None)] [Signal moveend] eq_refl).
Defined.
